(** * Frame interpolation of rendered targets ([src/engine/interpolate.js])

    A shallow embedding of [setupInitialState] and [interpolate], followed by
    the properties of the two functions.

    Numbers.  JavaScript numbers are modelled by the real numbers of the
    Standard Library: arithmetic is exact, and the special values (NaN, the
    infinities, the negative zero) are not represented.  [Math.abs],
    [Math.min], [Math.sin], [Math.cos] and [Math.PI] are the corresponding
    real functions; [Math.sign] and [Math.atan2] are written out below.

    Objects.  A target, its snapshot and the renderer are records.  The
    two-element scale arrays are the only objects [interpolate] writes to, so
    they live in an explicit store and are named by their address.

    Renderer.  The three renderer operations the code calls are recorded, in
    order, in the renderer's list of calls.

    Exceptions.  Calling a method of [undefined] raises a [TypeError]; the
    functions that can raise return a [Completion]. *)

From Stdlib Require Import Reals Lra List Bool Arith ZArith Lia String.
Import ListNotations.

Local Open Scope R_scope.

(** ** Numbers *)

Module Number.

(** [a > b], [a < b] and [a !== b] on numbers, as the booleans that the
    conditions of the source branch on. *)
Definition gt (a b : R) : bool := if Rlt_dec b a then true else false.
Definition lt (a b : R) : bool := if Rlt_dec a b then true else false.
Definition strictNotEqual (a b : R) : bool :=
  if Req_dec_T a b then false else true.
Definition strictEqual (a b : R) : bool := negb (strictNotEqual a b).

End Number.

Module Math.

Definition abs : R -> R := Rabs.
Definition min : R -> R -> R := Rmin.
Definition sin : R -> R := Rtrigo_def.sin.
Definition cos : R -> R := Rtrigo_def.cos.
Definition PI : R := Rtrigo1.PI.

(** [Math.sign]: 1 for a positive number, -1 for a negative one, 0 for 0. *)
Definition sign (a : R) : R :=
  if Rlt_dec 0 a then 1 else if Rlt_dec a 0 then -1 else 0.

(** [Math.atan2 (y, x)]: the angle of the point [(x, y)], in radians.  On
    the negative x axis the result is [PI] (the value for a positive zero
    [y]); at the origin it is 0 (the value for two positive zeros). *)
Definition atan2 (y x : R) : R :=
  if Rlt_dec 0 x then atan (y / x)
  else if Rlt_dec x 0 then
         if Rlt_dec y 0 then atan (y / x) - Rtrigo1.PI
         else atan (y / x) + Rtrigo1.PI
  else if Rlt_dec 0 y then Rtrigo1.PI / 2
  else if Rlt_dec y 0 then - (Rtrigo1.PI / 2)
  else 0.

End Math.

(** ** Exceptions *)

Inductive Error : Set := TypeError.

(** How a block of statements ends: normally, or by an exception that
    abandons the rest of the function.  Either way [state] is what the
    statements executed so far have made of the state. *)
Inductive Completion (A : Type) : Type :=
| Normal (state : A)
| Throw (error : Error) (state : A).

Arguments Normal {A} state.
Arguments Throw {A} error state.

Definition stateOf {A : Type} (c : Completion A) : A :=
  match c with
  | Normal state => state
  | Throw _ state => state
  end.

Definition throws {A : Type} (c : Completion A) : bool :=
  match c with
  | Normal _ => false
  | Throw _ _ => true
  end.

(** ** The store of scale arrays

    A rendered scale is a two-element array.  An array is an object: the
    snapshot holds a reference to it, and [interpolate] assigns to the
    elements of the one it receives.  The store lists the arrays allocated so
    far; an address is a position in that list. *)

Definition Address : Set := nat.
Definition ScaleArray : Type := (R * R)%type.
Definition Store : Type := list ScaleArray.

(** A new array literal [[a0, a1]]. *)
Definition allocate (store : Store) (a : ScaleArray) : Address * Store :=
  (List.length store, store ++ [a]).

(** The array behind a reference. *)
Definition load (store : Store) (p : Address) : ScaleArray :=
  nth p store (0, 0).

Fixpoint update (p : Address) (f : ScaleArray -> ScaleArray) (store : Store)
  : Store :=
  match store, p with
  | [], _ => []
  | a :: rest, O => f a :: rest
  | a :: rest, S q => a :: update q f rest
  end.

(** [p[0] = v] and [p[1] = v]. *)
Definition assign0 (store : Store) (p : Address) (v : R) : Store :=
  update p (fun a => (v, snd a)) store.
Definition assign1 (store : Store) (p : Address) (v : R) : Store :=
  update p (fun a => (fst a, v)) store.

(** ** Targets, snapshots, renderer, runtime *)

Module Effects.
Record t : Type := make { ghost : R }.
End Effects.

(** The object stored in [target.interpolationData]. *)
Module Snapshot.
Record t : Type := make {
  x : R;
  y : R;
  direction : R;
  scale : Address;
  costume : nat;
  ghost : R
}.
End Snapshot.

Module Target.
(** Modelled from the spec: [_getRenderedDirectionAndScale] is a method of
    the target that is not part of [interpolate.js]; it is a pure function
    of the target's logical state.  [renderedDirection] and [renderedScale]
    are the direction and the scale it computes for the target as it is. *)
Record t : Type := make {
  x : R;
  y : R;
  effects : Effects.t;
  currentCostume : nat;
  visible : bool;
  isStage : bool;
  drawableID : nat;
  renderedDirection : R;
  renderedScale : ScaleArray;
  interpolationData : option Snapshot.t
}.

(** [target.interpolationData = d]. *)
Definition setInterpolationData (target : t) (d : option Snapshot.t) : t :=
  {| x := x target;
     y := y target;
     effects := effects target;
     currentCostume := currentCostume target;
     visible := visible target;
     isStage := isStage target;
     drawableID := drawableID target;
     renderedDirection := renderedDirection target;
     renderedScale := renderedScale target;
     interpolationData := d |}.
End Target.

(** The object returned by [_getRenderedDirectionAndScale]. *)
Module DirectionAndScale.
Record t : Type := make { direction : R; scale : Address }.
End DirectionAndScale.

(** Modelled from the spec: [target._getRenderedDirectionAndScale ()], not
    part of [interpolate.js].  Each call returns a new object whose scale is
    a new array. *)
Definition getRenderedDirectionAndScale (target : Target.t) (store : Store)
  : DirectionAndScale.t * Store :=
  let '(scale, store) := allocate store (Target.renderedScale target) in
  ({| DirectionAndScale.direction := Target.renderedDirection target;
      DirectionAndScale.scale := scale |}, store).

(** Modelled from the spec: the renderer is not part of [interpolate.js].
    It is a table of drawables, each answering [getAABB] with a box, and
    three update operations.  An update is recorded as a call, with its
    arguments; what an update does to a drawable is the renderer's business
    and is not followed: the table, and the box each drawable answers, stay
    as they are throughout. *)
Module Renderer.
(** The rectangle returned by [drawable.getAABB ()]. *)
Record Bounds : Type := makeBounds { width : R; height : R }.

Record Drawable : Type := makeDrawable { getAABB : Bounds }.

(** A call of one of the renderer's update operations, with its arguments;
    a scale argument is recorded with the elements the array holds at the
    time of the call. *)
Inductive Call : Type :=
| Position (drawableID : nat) (position : R * R)
| Effect (drawableID : nat) (effectName : string) (value : R)
| DirectionScale (drawableID : nat) (direction : R) (scale : ScaleArray).

(** [allDrawables] is the array [_allDrawables], indexed by drawable id;
    an id without a drawable reads as [undefined]. *)
Record t : Type := make {
  allDrawables : list (option Drawable);
  calls : list Call
}.

Definition drawable (renderer : t) (drawableID : nat) : option Drawable :=
  match nth_error (allDrawables renderer) drawableID with
  | Some (Some d) => Some d
  | _ => None
  end.

Definition call (renderer : t) (c : Call) : t :=
  {| allDrawables := allDrawables renderer;
     calls := calls renderer ++ [c] |}.

Definition updateDrawablePosition (renderer : t) (drawableID : nat)
  (position : R * R) : t :=
  call renderer (Position drawableID position).

Definition updateDrawableEffect (renderer : t) (drawableID : nat)
  (effectName : string) (value : R) : t :=
  call renderer (Effect drawableID effectName value).

Definition updateDrawableDirectionScale (renderer : t) (drawableID : nat)
  (direction : R) (scale : ScaleArray) : t :=
  call renderer (DirectionScale drawableID direction scale).
End Renderer.

Record Runtime : Type := makeRuntime {
  targets : list Target.t;
  renderer : option Renderer.t
}.

(** ** [setupInitialState] *)

(** The body of the loop of [setupInitialState], for one target. *)
Definition setupTarget (target : Target.t) (store : Store)
  : Target.t * Store :=
  if Target.visible target && negb (Target.isStage target) then
    let '(directionAndScale, store) :=
      getRenderedDirectionAndScale target store in
    (Target.setInterpolationData target
       (Some {| Snapshot.x := Target.x target;
                Snapshot.y := Target.y target;
                Snapshot.direction :=
                  DirectionAndScale.direction directionAndScale;
                Snapshot.scale := DirectionAndScale.scale directionAndScale;
                Snapshot.costume := Target.currentCostume target;
                Snapshot.ghost := Effects.ghost (Target.effects target) |}),
     store)
  else
    (Target.setInterpolationData target None, store).

Fixpoint setupTargets (targets : list Target.t) (store : Store)
  : list Target.t * Store :=
  match targets with
  | [] => ([], store)
  | target :: rest =>
      let '(target, store) := setupTarget target store in
      let '(rest, store) := setupTargets rest store in
      (target :: rest, store)
  end.

Definition setupInitialState (runtime : Runtime) (store : Store)
  : Runtime * Store :=
  let '(targets, store) := setupTargets (targets runtime) store in
  ({| targets := targets; renderer := renderer runtime |}, store).

(** ** [interpolate] *)

(** Position interpolation (the first block of the loop body). *)
Definition interpolatePosition (renderer : Renderer.t) (target : Target.t)
  (interpolationData : Snapshot.t) (time : R) : Completion Renderer.t :=
  let drawableID := Target.drawableID target in
  let xDistance := Target.x target - Snapshot.x interpolationData in
  let yDistance := Target.y target - Snapshot.y interpolationData in
  let absoluteXDistance := Math.abs xDistance in
  let absoluteYDistance := Math.abs yDistance in
  if Number.gt absoluteXDistance 0.1 || Number.gt absoluteYDistance 0.1 then
    match Renderer.drawable renderer drawableID with
    | None => Throw TypeError renderer
    | Some drawable =>
        let bounds := Renderer.getAABB drawable in
        let xTolerance := Math.min 50 (10 + Renderer.width bounds) in
        let yTolerance := Math.min 50 (10 + Renderer.height bounds) in
        if Number.lt absoluteXDistance xTolerance
           && Number.lt absoluteYDistance yTolerance then
          let newX := Snapshot.x interpolationData + xDistance * time in
          let newY := Snapshot.y interpolationData + yDistance * time in
          Normal (Renderer.updateDrawablePosition renderer drawableID
                    (newX, newY))
        else Normal renderer
    end
  else Normal renderer.

(** Effect interpolation (the second block). *)
Definition interpolateEffect (renderer : Renderer.t) (target : Target.t)
  (interpolationData : Snapshot.t) (time : R) : Renderer.t :=
  let drawableID := Target.drawableID target in
  let ghostChange :=
    Effects.ghost (Target.effects target) - Snapshot.ghost interpolationData in
  let absoluteGhostChange := Math.abs ghostChange in
  if Number.gt absoluteGhostChange 0 && Number.lt absoluteGhostChange 25 then
    let newGhost :=
      Effects.ghost (Target.effects target) + ghostChange * time in
    Renderer.updateDrawableEffect renderer drawableID "ghost" newGhost
  else renderer.

(** The blended direction, in degrees. *)
Definition interpolatedDirection (direction startingDirection time : R) : R :=
  let currentRadians := direction * Math.PI / 180 in
  let startingRadians := startingDirection * Math.PI / 180 in
  Math.atan2
    (Math.sin currentRadians * time + Math.sin startingRadians)
    (Math.cos currentRadians * time + Math.cos startingRadians)
  * 180 / Math.PI.

(** Scale and direction interpolation (the third block). *)
Definition interpolateDirectionScale (renderer : Renderer.t) (store : Store)
  (target : Target.t) (interpolationData : Snapshot.t) (time : R)
  : Renderer.t * Store :=
  let drawableID := Target.drawableID target in
  let costumeDidChange :=
    negb (Snapshot.costume interpolationData
          =? Target.currentCostume target)%nat in
  if negb costumeDidChange then
    let '(rendered, store) := getRenderedDirectionAndScale target store in
    let direction := DirectionAndScale.direction rendered in
    let scale := DirectionAndScale.scale rendered in
    let updateDrawableDirectionScale := false in
    let '(direction, updateDrawableDirectionScale) :=
      if Number.strictNotEqual direction
           (Snapshot.direction interpolationData) then
        (interpolatedDirection direction
           (Snapshot.direction interpolationData) time,
         true)
      else (direction, updateDrawableDirectionScale) in
    let startingScale := Snapshot.scale interpolationData in
    let '(store, updateDrawableDirectionScale) :=
      if Number.strictNotEqual (fst (load store scale))
                               (fst (load store startingScale))
         || Number.strictNotEqual (snd (load store scale))
                                  (snd (load store startingScale)) then
        if Number.strictEqual (Math.sign (fst (load store scale)))
                              (Math.sign (fst (load store startingScale)))
           && Number.strictEqual (Math.sign (snd (load store scale)))
                                 (Math.sign (snd (load store startingScale)))
        then
          let changeX :=
            fst (load store scale) - fst (load store startingScale) in
          let changeY :=
            snd (load store scale) - snd (load store startingScale) in
          let absoluteChangeX := Math.abs changeX in
          let absoluteChangeY := Math.abs changeY in
          if Number.lt absoluteChangeX 100 && Number.lt absoluteChangeY 100
          then
            let store :=
              assign0 store scale
                (fst (load store startingScale) + changeX * time) in
            let store :=
              assign1 store scale
                (snd (load store startingScale) + changeY * time) in
            (store, true)
          else (store, updateDrawableDirectionScale)
        else (store, updateDrawableDirectionScale)
      else (store, updateDrawableDirectionScale) in
    if updateDrawableDirectionScale then
      (Renderer.updateDrawableDirectionScale renderer drawableID direction
         (load store scale),
       store)
    else (renderer, store)
  else (renderer, store).

(** The body of the loop of [interpolate], for one target. *)
Definition interpolateTarget (time : R) (target : Target.t)
  (state : Renderer.t * Store) : Completion (Renderer.t * Store) :=
  let '(renderer, store) := state in
  match Target.interpolationData target with
  | None => Normal (renderer, store)
  | Some interpolationData =>
      match interpolatePosition renderer target interpolationData time with
      | Throw e renderer => Throw e (renderer, store)
      | Normal renderer =>
          let renderer :=
            interpolateEffect renderer target interpolationData time in
          Normal (interpolateDirectionScale renderer store target
                    interpolationData time)
      end
  end.

Fixpoint interpolateTargets (time : R) (targets : list Target.t)
  (state : Renderer.t * Store) : Completion (Renderer.t * Store) :=
  match targets with
  | [] => Normal state
  | target :: rest =>
      match interpolateTarget time target state with
      | Throw e state => Throw e state
      | Normal state => interpolateTargets time rest state
      end
  end.

Definition interpolate (runtime : Runtime) (time : R) (store : Store)
  : Completion (Runtime * Store) :=
  match renderer runtime with
  | None => Normal (runtime, store)
  | Some renderer =>
      match interpolateTargets time (targets runtime) (renderer, store) with
      | Throw e (renderer, store) =>
          Throw e ({| targets := targets runtime;
                      renderer := Some renderer |}, store)
      | Normal (renderer, store) =>
          Normal ({| targets := targets runtime;
                     renderer := Some renderer |}, store)
      end
  end.

(** ** Sample data *)

Module Sample.

(** The snapshot of a sprite in costume 0 whose scale array is the first of
    the store. *)
Definition snapshot (x y direction ghost : R) : Snapshot.t :=
  {| Snapshot.x := x;
     Snapshot.y := y;
     Snapshot.direction := direction;
     Snapshot.scale := 0%nat;
     Snapshot.costume := 0%nat;
     Snapshot.ghost := ghost |}.

(** A visible sprite in costume 0 with drawable 0. *)
Definition sprite (x y direction ghost : R) (scale : ScaleArray)
  (interpolationData : option Snapshot.t) : Target.t :=
  {| Target.x := x;
     Target.y := y;
     Target.effects := {| Effects.ghost := ghost |};
     Target.currentCostume := 0%nat;
     Target.visible := true;
     Target.isStage := false;
     Target.drawableID := 0%nat;
     Target.renderedDirection := direction;
     Target.renderedScale := scale;
     Target.interpolationData := interpolationData |}.

Definition drawable : Renderer.Drawable :=
  {| Renderer.getAABB := {| Renderer.width := 20; Renderer.height := 20 |} |}.

(** A renderer with the one drawable 0, and one that has none. *)
Definition renderer : Renderer.t :=
  {| Renderer.allDrawables := [Some drawable]; Renderer.calls := [] |}.
Definition emptyRenderer : Renderer.t :=
  {| Renderer.allDrawables := []; Renderer.calls := [] |}.

End Sample.

(** ** The vocabulary of the properties *)

(** The three nested conditions under which the block assigns an interpolated
    scale. *)
Definition scaleIsInterpolated (scale startingScale : ScaleArray) : bool :=
  (Number.strictNotEqual (fst scale) (fst startingScale)
   || Number.strictNotEqual (snd scale) (snd startingScale))
  && (Number.strictEqual (Math.sign (fst scale)) (Math.sign (fst startingScale))
      && Number.strictEqual (Math.sign (snd scale))
           (Math.sign (snd startingScale)))
  && (Number.lt (Math.abs (fst scale - fst startingScale)) 100
      && Number.lt (Math.abs (snd scale - snd startingScale)) 100).

(** The elements assigned in that case. *)
Definition interpolatedScale (scale startingScale : ScaleArray) (time : R)
  : ScaleArray :=
  (fst startingScale + (fst scale - fst startingScale) * time,
   snd startingScale + (snd scale - snd startingScale) * time).

(** [issue renderer cs] is the renderer after the calls [cs]. *)
Definition issue (renderer : Renderer.t) (cs : list Renderer.Call)
  : Renderer.t :=
  {| Renderer.allDrawables := Renderer.allDrawables renderer;
     Renderer.calls := Renderer.calls renderer ++ cs |}.

Definition isPosition (c : Renderer.Call) : bool :=
  match c with Renderer.Position _ _ => true | _ => false end.
Definition isEffect (c : Renderer.Call) : bool :=
  match c with Renderer.Effect _ _ _ => true | _ => false end.
Definition isDirectionScale (c : Renderer.Call) : bool :=
  match c with Renderer.DirectionScale _ _ _ => true | _ => false end.

(** The calls of each of the three operations among [cs]. *)
Definition positionCalls (cs : list Renderer.Call) := filter isPosition cs.
Definition effectCalls (cs : list Renderer.Call) := filter isEffect cs.
Definition directionScaleCalls (cs : list Renderer.Call) :=
  filter isDirectionScale cs.

(** Each block issues at most one call, of its own operation. *)
Definition atMostOne (kind : Renderer.Call -> bool) (cs : list Renderer.Call)
  : Prop :=
  cs = [] \/ exists c, cs = [c] /\ kind c = true.

(** The host's render passes within a tick: [interpolate] once for each time
    of the list, each call on the state that the one before has left,
    whether it completed normally or raised. *)
Fixpoint renderPasses (times : list R) (runtime : Runtime) (store : Store)
  : Runtime * Store :=
  match times with
  | [] => (runtime, store)
  | time :: rest =>
      let '(runtime, store) := stateOf (interpolate runtime time store) in
      renderPasses rest runtime store
  end.

(** The target has a snapshot, has moved by more than 0.1 along an axis since,
    and its drawable id has no drawable in the renderer. *)
Definition lacksDrawable (renderer : Renderer.t) (target : Target.t) : Prop :=
  exists interpolationData,
    Target.interpolationData target = Some interpolationData
    /\ (0.1 < Math.abs (Target.x target - Snapshot.x interpolationData)
        \/ 0.1 < Math.abs (Target.y target - Snapshot.y interpolationData))
    /\ Renderer.drawable renderer (Target.drawableID target) = None.

(** The runtime after the renderer has been issued the calls [cs]. *)
Definition issueTo (runtime : Runtime) (cs : list Renderer.Call) : Runtime :=
  {| targets := targets runtime;
     renderer := option_map (fun r => issue r cs) (renderer runtime) |}.

(** [target'] is [target] after capture, in the store [store']: nothing but
    the snapshot has changed; a visible target that is not the stage holds a
    snapshot of its x, y, rendered direction, rendered scale, costume and
    ghost value; any other target holds none. *)
Definition captured (store' : Store) (target target' : Target.t) : Prop :=
  target' = Target.setInterpolationData target
              (Target.interpolationData target')
  /\ (Target.visible target = true -> Target.isStage target = false ->
      exists interpolationData,
        Target.interpolationData target' = Some interpolationData
        /\ Snapshot.x interpolationData = Target.x target
        /\ Snapshot.y interpolationData = Target.y target
        /\ Snapshot.direction interpolationData
           = Target.renderedDirection target
        /\ load store' (Snapshot.scale interpolationData)
           = Target.renderedScale target
        /\ Snapshot.costume interpolationData = Target.currentCostume target
        /\ Snapshot.ghost interpolationData
           = Effects.ghost (Target.effects target))
  /\ (Target.visible target = false \/ Target.isStage target = true ->
      Target.interpolationData target' = None).

(** ** The vocabulary of the further properties *)



(** The target, if it has a snapshot, is as the snapshot records it: the
    same x, y, ghost value, costume, rendered direction and rendered scale. *)
Definition atRest (store : Store) (target : Target.t) : Prop :=
  forall interpolationData,
    Target.interpolationData target = Some interpolationData ->
    Target.x target = Snapshot.x interpolationData
    /\ Target.y target = Snapshot.y interpolationData
    /\ Effects.ghost (Target.effects target)
       = Snapshot.ghost interpolationData
    /\ Snapshot.costume interpolationData = Target.currentCostume target
    /\ Target.renderedDirection target
       = Snapshot.direction interpolationData
    /\ (Snapshot.scale interpolationData < List.length store)%nat
    /\ load store (Snapshot.scale interpolationData)
       = Target.renderedScale target.


(** * Properties *)

(** ** The tests on numbers *)

Module NumberFacts.
Import Number.

Lemma gt_true (a b : R) : gt a b = true <-> b < a.
Proof. unfold gt; destruct (Rlt_dec b a); split; auto; discriminate. Qed.

Lemma gt_false (a b : R) : gt a b = false <-> a <= b.
Proof.
  unfold gt; destruct (Rlt_dec b a); split; auto; try discriminate; lra.
Qed.

Lemma lt_true (a b : R) : lt a b = true <-> a < b.
Proof. unfold lt; destruct (Rlt_dec a b); split; auto; discriminate. Qed.

Lemma lt_false (a b : R) : lt a b = false <-> b <= a.
Proof.
  unfold lt; destruct (Rlt_dec a b); split; auto; try discriminate; lra.
Qed.

Lemma strictNotEqual_true (a b : R) : strictNotEqual a b = true <-> a <> b.
Proof.
  unfold strictNotEqual; destruct (Req_dec_T a b); split; auto;
    try discriminate; contradiction.
Qed.

Lemma strictNotEqual_false (a b : R) : strictNotEqual a b = false <-> a = b.
Proof.
  unfold strictNotEqual; destruct (Req_dec_T a b); split; auto;
    try discriminate; contradiction.
Qed.

Lemma strictEqual_true (a b : R) : strictEqual a b = true <-> a = b.
Proof.
  unfold strictEqual; rewrite negb_true_iff; apply strictNotEqual_false.
Qed.

Lemma strictEqual_false (a b : R) : strictEqual a b = false <-> a <> b.
Proof.
  unfold strictEqual; rewrite negb_false_iff; apply strictNotEqual_true.
Qed.

End NumberFacts.

(** ** The store *)

Section StoreFacts.

Variables (store : Store) (a : ScaleArray).

Lemma load_allocate_new : load (store ++ [a]) (List.length store) = a.
Proof. unfold load. rewrite nth_middle. reflexivity. Qed.

Lemma load_allocate_old (p : Address) :
  (p < List.length store)%nat -> load (store ++ [a]) p = load store p.
Proof. intros Hp. unfold load. now rewrite app_nth1. Qed.

End StoreFacts.

Lemma update_length (f : ScaleArray -> ScaleArray) (store : Store)
  (p : Address) :
  List.length (update p f store) = List.length store.
Proof.
  revert p. induction store as [|a rest IH]; intros [|q]; simpl; auto.
Qed.

Lemma load_update_same (f : ScaleArray -> ScaleArray) (store : Store)
  (p : Address) :
  (p < List.length store)%nat -> load (update p f store) p = f (load store p).
Proof.
  revert p. induction store as [|a rest IH]; intros [|q] Hp; simpl in *;
    try lia; auto.
  apply IH. lia.
Qed.

Lemma load_update_other (f : ScaleArray -> ScaleArray) (store : Store)
  (p q : Address) :
  p <> q -> load (update p f store) q = load store q.
Proof.
  revert p q. induction store as [|a rest IH]; intros [|p] [|q] Hpq; simpl;
    auto; try congruence.
  apply IH. congruence.
Qed.

(** Writing through a reference changes no other array: the arrays before
    the written one are a prefix of the store that the write leaves as it
    is. *)
Lemma update_prefix (f : ScaleArray -> ScaleArray) (old : Store)
  (a : ScaleArray) :
  update (List.length old) f (old ++ [a]) = old ++ [f a].
Proof. induction old as [|b rest IH]; simpl; [reflexivity | now rewrite IH]. Qed.

(** ** The scale and direction block, by value

    The block allocates the array it works on, so what it computes depends
    only on the elements of the current and of the starting scale. *)

Section DirectionScaleBlock.

Variables (renderer : Renderer.t) (store : Store) (target : Target.t)
  (interpolationData : Snapshot.t) (time : R).

Lemma interpolateDirectionScale_costume_changed :
  Snapshot.costume interpolationData <> Target.currentCostume target ->
  interpolateDirectionScale renderer store target interpolationData time
  = (renderer, store).
Proof.
  intros Hcostume. unfold interpolateDirectionScale.
  apply Nat.eqb_neq in Hcostume. rewrite Hcostume. reflexivity.
Qed.

Hypothesis costume_unchanged :
  Snapshot.costume interpolationData = Target.currentCostume target.
Hypothesis starting_scale_allocated :
  (Snapshot.scale interpolationData < List.length store)%nat.

Lemma interpolateDirectionScale_costume_unchanged :
  let scale := Target.renderedScale target in
  let startingScale := load store (Snapshot.scale interpolationData) in
  let directionChanged :=
    Number.strictNotEqual (Target.renderedDirection target)
      (Snapshot.direction interpolationData) in
  let direction :=
    if directionChanged then
      interpolatedDirection (Target.renderedDirection target)
        (Snapshot.direction interpolationData) time
    else Target.renderedDirection target in
  let scale' :=
    if scaleIsInterpolated scale startingScale then
      interpolatedScale scale startingScale time
    else scale in
  interpolateDirectionScale renderer store target interpolationData time
  = (if directionChanged || scaleIsInterpolated scale startingScale then
       Renderer.updateDrawableDirectionScale renderer
         (Target.drawableID target) direction scale'
     else renderer,
     store ++ [scale']).
Proof.
  cbv zeta.
  unfold interpolateDirectionScale, getRenderedDirectionAndScale, allocate,
    scaleIsInterpolated, interpolatedScale.
  rewrite costume_unchanged, Nat.eqb_refl.
  cbn [negb DirectionAndScale.direction DirectionAndScale.scale].
  rewrite load_allocate_new, load_allocate_old by assumption.
  set (differs := (Number.strictNotEqual (fst _) _ || _)%bool).
  set (signs := (Number.strictEqual _ _ && _)%bool).
  set (small := (Number.lt _ _ && _)%bool).
  destruct (Number.strictNotEqual (Target.renderedDirection target) _),
    differs, signs, small; cbn [andb orb]; try reflexivity;
    unfold assign0, assign1;
    repeat (rewrite update_prefix || rewrite load_allocate_new
            || rewrite load_allocate_old by assumption);
    reflexivity.
Qed.

End DirectionScaleBlock.

(** ** Deciding the tests of the code *)

(** Inequalities between explicit numbers, through [Math.abs], [Math.min] and
    [Math.sign]. *)
Ltac real_arith :=
  cbn [Target.x Target.y Target.effects Target.renderedDirection
       Target.renderedScale Target.drawableID Target.currentCostume
       Target.interpolationData Snapshot.x Snapshot.y Snapshot.direction
       Snapshot.scale Snapshot.costume Snapshot.ghost Effects.ghost
       Renderer.getAABB Renderer.width Renderer.height fst snd
       Sample.sprite Sample.snapshot Sample.drawable] in *;
  unfold Math.abs, Math.min, Math.sign, Rabs, Rmin in *;
  repeat match goal with
    | |- context [Rcase_abs ?a] => destruct (Rcase_abs a)
    | |- context [Rle_dec ?a ?b] => destruct (Rle_dec a b)
    | |- context [Rlt_dec ?a ?b] => destruct (Rlt_dec a b)
    | H : context [Rcase_abs ?a] |- _ => destruct (Rcase_abs a)
    | H : context [Rle_dec ?a ?b] |- _ => destruct (Rle_dec a b)
    | H : context [Rlt_dec ?a ?b] |- _ => destruct (Rlt_dec a b)
    end;
  try lra.

(** Replaces every test whose outcome follows by [lra] from the context. *)
Ltac decide_tests :=
  repeat match goal with
    | |- context [Number.gt ?a ?b] =>
        first [ rewrite (proj2 (NumberFacts.gt_true a b)) by lra
              | rewrite (proj2 (NumberFacts.gt_false a b)) by lra ]
    | |- context [Number.lt ?a ?b] =>
        first [ rewrite (proj2 (NumberFacts.lt_true a b)) by lra
              | rewrite (proj2 (NumberFacts.lt_false a b)) by lra ]
    | |- context [Number.strictNotEqual ?a ?b] =>
        first [ rewrite (proj2 (NumberFacts.strictNotEqual_true a b)) by lra
              | rewrite (proj2 (NumberFacts.strictNotEqual_false a b)) by lra ]
    end.

(** The same for tests between explicit numbers. *)
Ltac decide_explicit_tests :=
  cbn [Target.x Target.y Target.effects Target.renderedDirection
       Target.renderedScale Target.drawableID Target.currentCostume
       Target.interpolationData Snapshot.x Snapshot.y Snapshot.direction
       Snapshot.scale Snapshot.costume Snapshot.ghost Effects.ghost
       Renderer.getAABB Renderer.width Renderer.height fst snd load nth
       Sample.sprite Sample.snapshot Sample.drawable];
  repeat match goal with
    | |- context [Number.gt ?a ?b] =>
        first [ rewrite (proj2 (NumberFacts.gt_true a b)) by real_arith
              | rewrite (proj2 (NumberFacts.gt_false a b)) by real_arith ]
    | |- context [Number.lt ?a ?b] =>
        first [ rewrite (proj2 (NumberFacts.lt_true a b)) by real_arith
              | rewrite (proj2 (NumberFacts.lt_false a b)) by real_arith ]
    | |- context [Number.strictNotEqual ?a ?b] =>
        first [ rewrite (proj2 (NumberFacts.strictNotEqual_true a b))
                  by real_arith
              | rewrite (proj2 (NumberFacts.strictNotEqual_false a b))
                  by real_arith ]
    | |- context [Number.strictEqual ?a ?b] =>
        first [ rewrite (proj2 (NumberFacts.strictEqual_true a b)) by real_arith
              | rewrite (proj2 (NumberFacts.strictEqual_false a b))
                  by real_arith ]
    end;
  cbn [andb orb negb].

(** ** The position block *)

Section PositionBlock.

Variables (renderer : Renderer.t) (target : Target.t)
  (interpolationData : Snapshot.t) (time : R).

Let xDistance := Target.x target - Snapshot.x interpolationData.
Let yDistance := Target.y target - Snapshot.y interpolationData.

Lemma interpolatePosition_unmoved :
  Math.abs xDistance <= 0.1 -> Math.abs yDistance <= 0.1 ->
  interpolatePosition renderer target interpolationData time
  = Normal renderer.
Proof.
  intros Hx Hy. unfold interpolatePosition. fold xDistance yDistance.
  decide_tests. reflexivity.
Qed.

Lemma interpolatePosition_no_drawable :
  0.1 < Math.abs xDistance \/ 0.1 < Math.abs yDistance ->
  Renderer.drawable renderer (Target.drawableID target) = None ->
  interpolatePosition renderer target interpolationData time
  = Throw TypeError renderer.
Proof.
  intros Hmoved Hnone. unfold interpolatePosition.
  fold xDistance yDistance. rewrite Hnone.
  destruct Hmoved; decide_tests; rewrite ?orb_true_r; reflexivity.
Qed.

Variable drawable : Renderer.Drawable.
Hypothesis drawable_found :
  Renderer.drawable renderer (Target.drawableID target) = Some drawable.

Let xTolerance :=
  Math.min 50 (10 + Renderer.width (Renderer.getAABB drawable)).
Let yTolerance :=
  Math.min 50 (10 + Renderer.height (Renderer.getAABB drawable)).

Lemma interpolatePosition_jump :
  xTolerance <= Math.abs xDistance \/ yTolerance <= Math.abs yDistance ->
  interpolatePosition renderer target interpolationData time
  = Normal renderer.
Proof.
  intros Hjump. unfold interpolatePosition.
  fold xDistance yDistance. rewrite drawable_found.
  fold xTolerance yTolerance.
  destruct (_ || _); [|reflexivity].
  destruct Hjump; decide_tests; rewrite ?andb_false_r; reflexivity.
Qed.

Lemma interpolatePosition_blend :
  0.1 < Math.abs xDistance \/ 0.1 < Math.abs yDistance ->
  Math.abs xDistance < xTolerance -> Math.abs yDistance < yTolerance ->
  interpolatePosition renderer target interpolationData time
  = Normal
      (Renderer.updateDrawablePosition renderer (Target.drawableID target)
         (Snapshot.x interpolationData + xDistance * time,
          Snapshot.y interpolationData + yDistance * time)).
Proof.
  intros Hmoved Hx Hy. unfold interpolatePosition.
  fold xDistance yDistance. rewrite drawable_found.
  fold xTolerance yTolerance.
  destruct Hmoved; decide_tests; rewrite ?orb_true_r; reflexivity.
Qed.

(** With the drawable in place the block does not raise. *)
Lemma interpolatePosition_normal :
  throws (interpolatePosition renderer target interpolationData time)
  = false.
Proof.
  unfold interpolatePosition. rewrite drawable_found.
  destruct (_ || _); [destruct (_ && _)|]; reflexivity.
Qed.

End PositionBlock.

(** ** The effect block *)

Section EffectBlock.

Variables (renderer : Renderer.t) (target : Target.t)
  (interpolationData : Snapshot.t) (time : R).

Let ghostChange :=
  Effects.ghost (Target.effects target) - Snapshot.ghost interpolationData.

Lemma interpolateEffect_blend :
  0 < Math.abs ghostChange < 25 ->
  interpolateEffect renderer target interpolationData time
  = Renderer.updateDrawableEffect renderer (Target.drawableID target)
      "ghost" (Effects.ghost (Target.effects target) + ghostChange * time).
Proof.
  intros [Hlow Hhigh]. unfold interpolateEffect. fold ghostChange.
  decide_tests. reflexivity.
Qed.

Lemma interpolateEffect_skip :
  ghostChange = 0 \/ 25 <= Math.abs ghostChange ->
  interpolateEffect renderer target interpolationData time = renderer.
Proof.
  intros Hskip. unfold interpolateEffect. fold ghostChange.
  destruct Hskip as [Hzero | Hlarge].
  - rewrite Hzero. unfold Math.abs. rewrite Rabs_R0.
    decide_tests. reflexivity.
  - decide_tests. rewrite andb_false_r. reflexivity.
Qed.

End EffectBlock.

(** ** The calls issued by one iteration of the loop *)

Lemma issue_nil (renderer : Renderer.t) : issue renderer [] = renderer.
Proof. destruct renderer. unfold issue. cbn. now rewrite app_nil_r. Qed.

Lemma issue_issue (renderer : Renderer.t) (cs ds : list Renderer.Call) :
  issue (issue renderer cs) ds = issue renderer (cs ++ ds).
Proof. unfold issue. cbn. now rewrite app_assoc. Qed.

Lemma issue_inj (renderer : Renderer.t) (cs ds : list Renderer.Call) :
  issue renderer cs = issue renderer ds -> cs = ds.
Proof.
  unfold issue. intros H. injection H as H. now apply app_inv_head in H.
Qed.

Lemma drawable_issue (renderer : Renderer.t) (cs : list Renderer.Call)
  (drawableID : nat) :
  Renderer.drawable (issue renderer cs) drawableID
  = Renderer.drawable renderer drawableID.
Proof. reflexivity. Qed.

Lemma interpolatePosition_issues (renderer : Renderer.t) (target : Target.t)
  (interpolationData : Snapshot.t) (time : R) :
  exists ps,
    stateOf (interpolatePosition renderer target interpolationData time)
    = issue renderer ps
    /\ atMostOne isPosition ps.
Proof.
  unfold interpolatePosition.
  destruct (_ || _);
    [destruct (Renderer.drawable _ _); [destruct (_ && _)|]|].
  2-4: exists []; rewrite issue_nil; split; [reflexivity | now left].
  eexists [_]. split; [reflexivity|]. right. eexists. split; reflexivity.
Qed.

Lemma interpolateEffect_issues (renderer : Renderer.t) (target : Target.t)
  (interpolationData : Snapshot.t) (time : R) :
  exists es,
    interpolateEffect renderer target interpolationData time
    = issue renderer es
    /\ atMostOne isEffect es.
Proof.
  unfold interpolateEffect. destruct (_ && _).
  - eexists [_]. split; [reflexivity|]. right. eexists. split; reflexivity.
  - exists []. rewrite issue_nil. split; [reflexivity | now left].
Qed.

(** The block leaves the arrays of the store as they are and adds at most the
    one it works on. *)
Lemma interpolateDirectionScale_issues (renderer : Renderer.t) (store : Store)
  (target : Target.t) (interpolationData : Snapshot.t) (time : R) :
  exists ds added,
    interpolateDirectionScale renderer store target interpolationData time
    = (issue renderer ds, store ++ added)
    /\ atMostOne isDirectionScale ds.
Proof.
  unfold interpolateDirectionScale, getRenderedDirectionAndScale, allocate.
  destruct (negb (negb _)).
  2: { exists [], []. rewrite issue_nil, app_nil_r. split; [reflexivity|].
       now left. }
  cbn [DirectionAndScale.direction DirectionAndScale.scale].
  set (differs := (Number.strictNotEqual (fst _) _ || _)%bool).
  set (signs := (Number.strictEqual _ _ && _)%bool).
  set (small := (Number.lt _ _ && _)%bool).
  destruct (Number.strictNotEqual (Target.renderedDirection target) _),
    differs, signs, small; cbn [andb orb];
    unfold assign0, assign1; rewrite ?update_prefix.
  all: first
    [ exists [], [Target.renderedScale target]; rewrite issue_nil;
      split; [reflexivity | now left]
    | eexists [_], [_]; split; [reflexivity|];
      right; eexists; split; reflexivity ].
Qed.

(** ** The loop *)

Lemma interpolateTarget_no_snapshot (time : R) (target : Target.t)
  (state : Renderer.t * Store) :
  Target.interpolationData target = None ->
  interpolateTarget time target state = Normal state.
Proof. intros H. unfold interpolateTarget. rewrite H. now destruct state. Qed.

(** One iteration issues the calls of its three blocks, in this order. *)
Lemma interpolateTarget_blocks (time : R) (target : Target.t)
  (interpolationData : Snapshot.t) (renderer : Renderer.t) (store : Store) :
  Target.interpolationData target = Some interpolationData ->
  throws (interpolatePosition renderer target interpolationData time) = false ->
  exists ps es ds added,
    interpolatePosition renderer target interpolationData time
    = Normal (issue renderer ps)
    /\ interpolateEffect (issue renderer ps) target interpolationData time
       = issue (issue renderer ps) es
    /\ interpolateDirectionScale (issue (issue renderer ps) es) store target
         interpolationData time
       = (issue (issue (issue renderer ps) es) ds, store ++ added)
    /\ interpolateTarget time target (renderer, store)
       = Normal (issue renderer (ps ++ es ++ ds), store ++ added)
    /\ atMostOne isPosition ps
    /\ atMostOne isEffect es
    /\ atMostOne isDirectionScale ds.
Proof.
  intros Hdata Hnormal.
  destruct (interpolatePosition_issues renderer target interpolationData time)
    as (ps & Hps & Hps1).
  destruct (interpolateEffect_issues (issue renderer ps) target
              interpolationData time) as (es & Hes & Hes1).
  destruct (interpolateDirectionScale_issues (issue (issue renderer ps) es)
              store target interpolationData time)
    as (ds & added & Hds & Hds1).
  exists ps, es, ds, added.
  assert (Hpos : interpolatePosition renderer target interpolationData time
                 = Normal (issue renderer ps)).
  { destruct (interpolatePosition _ _ _ _); cbn in *;
      [now subst | discriminate]. }
  repeat split; auto.
  unfold interpolateTarget. rewrite Hdata, Hpos, Hes, Hds.
  now rewrite !issue_issue.
Qed.

(** Whatever happens, one iteration only issues calls and only adds to the
    store. *)
Lemma interpolateTarget_frame (time : R) (target : Target.t)
  (renderer : Renderer.t) (store : Store) :
  exists issued added,
    stateOf (interpolateTarget time target (renderer, store))
    = (issue renderer issued, store ++ added).
Proof.
  destruct (Target.interpolationData target) as [data|] eqn:Hdata.
  - destruct (throws (interpolatePosition renderer target data time))
      eqn:Hthrows.
    + destruct (interpolatePosition_issues renderer target data time)
        as (ps & Hps & _).
      exists ps, []. unfold interpolateTarget. rewrite Hdata.
      destruct (interpolatePosition _ _ _ _); cbn in *; [discriminate|].
      now rewrite app_nil_r, Hps.
    + destruct (interpolateTarget_blocks time target data renderer store
                  Hdata Hthrows) as (ps & es & ds & added & H).
      exists (ps ++ es ++ ds), added.
      destruct H as (_ & _ & _ & -> & _). reflexivity.
  - exists [], []. rewrite interpolateTarget_no_snapshot by assumption.
    cbn. now rewrite issue_nil, app_nil_r.
Qed.

Lemma interpolateTargets_frame (time : R) (targets : list Target.t) :
  forall (renderer : Renderer.t) (store : Store),
  exists issued added,
    stateOf (interpolateTargets time targets (renderer, store))
    = (issue renderer issued, store ++ added).
Proof.
  induction targets as [|target rest IH]; intros renderer store.
  - exists [], []. cbn. now rewrite issue_nil, app_nil_r.
  - destruct (interpolateTarget_frame time target renderer store)
      as (issued & added & Hbody).
    cbn [interpolateTargets].
    destruct (interpolateTarget time target (renderer, store))
      as [state | e state]; cbn in Hbody; subst state; cbv beta iota.
    + destruct (IH (issue renderer issued) (store ++ added))
        as (issued' & added' & Hrest).
      exists (issued ++ issued'), (added ++ added').
      rewrite <- issue_issue, app_assoc. exact Hrest.
    + exists issued, added. reflexivity.
Qed.

(** With a renderer attached, [interpolate] is the loop. *)
Lemma interpolate_with_renderer (runtime : Runtime) (time : R) (store : Store)
  (r : Renderer.t) :
  renderer runtime = Some r ->
  throws (interpolate runtime time store)
  = throws (interpolateTargets time (targets runtime) (r, store))
  /\ stateOf (interpolate runtime time store)
     = ({| targets := targets runtime;
           renderer :=
             Some (fst (stateOf (interpolateTargets time (targets runtime)
                                   (r, store)))) |},
        snd (stateOf (interpolateTargets time (targets runtime) (r, store)))).
Proof.
  intros Hr. unfold interpolate. rewrite Hr.
  destruct (interpolateTargets _ _ _) as [[r' s'] | e [r' s']]; cbn; auto.
Qed.

Lemma interpolate_headless (runtime : Runtime) (time : R) (store : Store) :
  renderer runtime = None ->
  interpolate runtime time store = Normal (runtime, store).
Proof. intros Hr. unfold interpolate. now rewrite Hr. Qed.

(** ** Angles *)

Lemma atan_nonpos (a : R) : a <= 0 -> atan a <= 0.
Proof.
  intros [Hneg | ->]; [|rewrite atan_0; lra].
  apply atan_increasing in Hneg. rewrite atan_0 in Hneg. lra.
Qed.

Lemma atan_pos (a : R) : 0 < a -> 0 < atan a.
Proof. intros H. apply atan_increasing in H. now rewrite atan_0 in H. Qed.

Lemma quotient_nonpos (y x : R) : 0 <= y -> x < 0 -> y / x <= 0.
Proof.
  intros Hy Hx. unfold Rdiv.
  assert (/ x < 0) by now apply Rinv_neg.
  nra.
Qed.

Lemma quotient_pos (y x : R) : y < 0 -> x < 0 -> 0 < y / x.
Proof.
  intros Hy Hx. unfold Rdiv.
  assert (/ x < 0) by now apply Rinv_neg.
  nra.
Qed.

(** [Math.atan2] returns an angle of the half-open turn from [-PI] to [PI]. *)
Lemma atan2_range (y x : R) :
  - Math.PI < Math.atan2 y x <= Math.PI.
Proof.
  unfold Math.atan2, Math.PI.
  pose proof PI_RGT_0 as Hpi.
  pose proof (atan_bound (y / x)) as Hbound.
  destruct (Rlt_dec 0 x) as [Hx | Hx]; [lra|].
  destruct (Rlt_dec x 0) as [Hx' | Hx'].
  - destruct (Rlt_dec y 0) as [Hy | Hy].
    + pose proof (atan_pos _ (quotient_pos y x Hy Hx')). lra.
    + assert (0 <= y) as Hy' by lra.
      pose proof (atan_nonpos _ (quotient_nonpos y x Hy' Hx')). lra.
  - destruct (Rlt_dec 0 y); [lra|]. destruct (Rlt_dec y 0); lra.
Qed.

(** Radians to degrees, as the code converts them. *)
Lemma degrees_range (a : R) :
  - Math.PI < a <= Math.PI -> -180 < a * 180 / Math.PI <= 180.
Proof.
  unfold Math.PI. intros [Hlow Hhigh].
  pose proof PI_RGT_0 as Hpi.
  assert (Hinv : 0 < / PI) by now apply Rinv_0_lt_compat.
  assert (Hone : PI * / PI = 1) by (apply Rinv_r; lra).
  unfold Rdiv. split; nra.
Qed.

Lemma interpolatedDirection_range (direction startingDirection time : R) :
  -180 < interpolatedDirection direction startingDirection time <= 180.
Proof. unfold interpolatedDirection. apply degrees_range, atan2_range. Qed.

(** The tangent of an angle shifted by half a turn. *)
Lemma quotient_shift (a : R) :
  cos a <> 0 -> sin a / cos a = tan (a + PI) /\ sin a / cos a = tan (a - PI).
Proof.
  intros Hcos. unfold tan. split.
  - rewrite neg_sin, neg_cos. field. assumption.
  - assert (Hs : sin a = - sin (a - PI))
      by (rewrite <- neg_sin; f_equal; lra).
    assert (Hc : cos a = - cos (a - PI))
      by (rewrite <- neg_cos; f_equal; lra).
    rewrite Hs, Hc. field. lra.
Qed.

(** The angle of the point [(cos a, sin a)] is [a], when [a] is an angle of
    the half-open turn from [-PI] to [PI]. *)
Lemma atan2_sin_cos (a : R) :
  - Math.PI < a <= Math.PI -> Math.atan2 (Math.sin a) (Math.cos a) = a.
Proof.
  unfold Math.atan2, Math.sin, Math.cos, Math.PI. intros [Hlow Hhigh].
  pose proof PI_RGT_0 as Hpi.
  destruct (Rlt_dec 0 (cos a)) as [Hc | Hc].
  - (* the right half plane *)
    assert (- (PI / 2) < a < PI / 2) as Ha.
    { split.
      - destruct (Rlt_dec (- (PI / 2)) a) as [|Hn]; [assumption|].
        pose proof (cos_le_0 (- a)) as H. rewrite cos_neg in H. lra.
      - destruct (Rlt_dec a (PI / 2)) as [|Hn]; [assumption|].
        pose proof (cos_le_0 a). lra. }
    apply (atan_tan a Ha).
  - destruct (Rlt_dec (cos a) 0) as [Hc' | Hc'].
    + (* the left half plane *)
      assert (cos a <> 0) as Hne by lra.
      destruct (quotient_shift a Hne) as [Hplus Hminus].
      assert (a < - (PI / 2) \/ PI / 2 < a) as Hside.
      { destruct (Rlt_dec a (- (PI / 2))); [now left|].
        destruct (Rlt_dec (PI / 2) a); [now right|].
        pose proof (cos_ge_0 a). lra. }
      destruct (Rlt_dec (sin a) 0) as [Hs | Hs].
      * assert (a < - (PI / 2)) as Ha.
        { destruct Hside; [assumption|]. pose proof (sin_ge_0 a). lra. }
        rewrite Hplus, atan_tan; lra.
      * assert (PI / 2 < a) as Ha.
        { destruct Hside; [|assumption]. pose proof (sin_lt_0_var a). lra. }
        rewrite Hminus, atan_tan; lra.
    + (* the vertical axis *)
      assert (a = PI / 2 \/ a = - (PI / 2)) as Ha.
      { destruct (Rlt_dec a (- (PI / 2))).
        - pose proof (cos_lt_0 (- a)) as H. rewrite cos_neg in H. lra.
        - destruct (Rlt_dec (PI / 2) a).
          + pose proof (cos_lt_0 a). lra.
          + destruct (Rlt_dec a (PI / 2)); [|lra].
            destruct (Rlt_dec (- (PI / 2)) a); [|lra].
            pose proof (cos_gt_0 a). lra. }
      destruct Ha as [-> | ->].
      * rewrite sin_PI2. destruct (Rlt_dec 0 1); lra.
      * rewrite sin_neg, sin_PI2.
        repeat match goal with
          | |- context [Rlt_dec ?u ?v] => destruct (Rlt_dec u v)
          end; lra.
Qed.

(** At time 0 the blended direction is the starting direction. *)
Lemma interpolatedDirection_start (direction startingDirection : R) :
  -180 < startingDirection <= 180 ->
  interpolatedDirection direction startingDirection 0 = startingDirection.
Proof.
  intros [Hlow Hhigh]. unfold interpolatedDirection.
  rewrite !Rmult_0_r, !Rplus_0_l.
  pose proof PI_RGT_0 as Hpi.
  rewrite atan2_sin_cos.
  - unfold Math.PI. field. lra.
  - unfold Math.PI. split; nra.
Qed.

(** From 350 degrees towards 10 degrees at half time: the blended direction
    is strictly between -10 and 0 degrees (it is about -3.36 degrees). *)
Lemma interpolatedDirection_350_10_half :
  -10 < interpolatedDirection 10 350 0.5 < 0.
Proof.
  unfold interpolatedDirection, Math.atan2, Math.sin, Math.cos, Math.PI.
  pose proof PI_RGT_0 as Hpi.
  set (a := 10 * PI / 180).
  assert (Ha : 0 < a < PI / 2) by (unfold a; lra).
  replace (350 * PI / 180) with (2 * PI - a) by (unfold a; lra).
  rewrite sin_minus, cos_minus, sin_2PI, cos_2PI.
  assert (Hs : 0 < sin a) by (apply sin_gt_0; lra).
  assert (Hc : 0 < cos a) by (apply cos_gt_0; lra).
  destruct (Rlt_dec 0 (cos a * 0.5 + (1 * cos a + 0 * sin a))) as [_|Hn];
    [|lra].
  set (q := (sin a * 0.5 + (0 * cos a - 1 * sin a))
            / (cos a * 0.5 + (1 * cos a + 0 * sin a))).
  assert (Hq : q = - (tan a / 3)).
  { unfold q, tan. replace 0.5 with (/ 2) by lra. field. lra. }
  assert (Ht : 0 < tan a) by (unfold tan; now apply Rdiv_lt_0_compat).
  assert (Hupper : atan q < 0).
  { rewrite <- atan_0. apply atan_increasing. lra. }
  assert (Hlower : - a < atan q).
  { rewrite <- (atan_tan a) at 1 by lra. rewrite <- atan_opp.
    apply atan_increasing. lra. }
  assert (Hinv : 0 < / PI) by now apply Rinv_0_lt_compat.
  assert (Hone : PI * / PI = 1) by (apply Rinv_r; lra).
  unfold a in Hlower. unfold Rdiv in *. split; nra.
Qed.

(** Between the same two directions at time 1: the middle, 0 degrees. *)
Lemma interpolatedDirection_350_10_end :
  interpolatedDirection 10 350 1 = 0.
Proof.
  unfold interpolatedDirection, Math.atan2, Math.sin, Math.cos, Math.PI.
  pose proof PI_RGT_0 as Hpi.
  set (a := 10 * PI / 180).
  assert (Ha : 0 < a < PI / 2) by (unfold a; lra).
  replace (350 * PI / 180) with (2 * PI - a) by (unfold a; lra).
  rewrite sin_minus, cos_minus, sin_2PI, cos_2PI.
  assert (Hc : 0 < cos a) by (apply cos_gt_0; lra).
  destruct (Rlt_dec 0 (cos a * 1 + (1 * cos a + 0 * sin a))) as [_|Hn];
    [|lra].
  replace (sin a * 1 + (0 * cos a - 1 * sin a)) with 0 by lra.
  set (x := cos a * 1 + (1 * cos a + 0 * sin a)).
  replace (0 / x) with 0 by (unfold Rdiv; now rewrite Rmult_0_l).
  rewrite atan_0. field. lra.
Qed.

(** ** Sorting the calls of an iteration by operation *)

Lemma calls_of_blocks (ps es ds : list Renderer.Call) :
  atMostOne isPosition ps -> atMostOne isEffect es ->
  atMostOne isDirectionScale ds ->
  positionCalls (ps ++ es ++ ds) = ps
  /\ effectCalls (ps ++ es ++ ds) = es
  /\ directionScaleCalls (ps ++ es ++ ds) = ds.
Proof.
  intros [-> | (p & -> & Hp)] [-> | (e & -> & He)] [-> | (d & -> & Hd)];
    try destruct p; try destruct e; try destruct d;
    try discriminate; repeat split; reflexivity.
Qed.

(** What the three blocks issue, by operation. *)
Ltac blocks_of store Hdata Hnormal :=
  let ps := fresh "ps" in
  let es := fresh "es" in
  let ds := fresh "ds" in
  let added := fresh "added" in
  let Hps := fresh "Hps" in
  let Hes := fresh "Hes" in
  let Hds := fresh "Hds" in
  let Hrun := fresh "Hrun" in
  let Hp := fresh "Hp" in
  let He := fresh "He" in
  let Hd := fresh "Hd" in
  let Hpc := fresh "Hpc" in
  let Hec := fresh "Hec" in
  let Hdc := fresh "Hdc" in
  destruct (interpolateTarget_blocks _ _ _ _ store Hdata Hnormal)
    as (ps & es & ds & added & Hps & Hes & Hds & Hrun & Hp & He & Hd);
  destruct (calls_of_blocks ps es ds Hp He Hd) as (Hpc & Hec & Hdc).

Lemma Normal_inj {A : Type} (a b : A) : Normal a = Normal b -> a = b.
Proof. now injection 1. Qed.

Lemma issue_one_inj (renderer : Renderer.t) (cs : list Renderer.Call)
  (c : Renderer.Call) :
  issue renderer cs = Renderer.call renderer c -> cs = [c].
Proof. apply issue_inj. Qed.

Lemma issue_none_inj (renderer : Renderer.t) (cs : list Renderer.Call) :
  issue renderer cs = renderer -> cs = [].
Proof. rewrite <- (issue_nil renderer) at 2. apply issue_inj. Qed.

(** ** Position blending *)

(** C7.  For a target with a snapshot whose drawable is in the renderer, one
    iteration of the loop of [interpolate] issues no position update when
    both distances from the snapshot are at most 0.1; otherwise, with the
    tolerances [min (50, 10 + width)] and [min (50, 10 + height)] of the
    drawable's bounding box, it issues none when a distance reaches its
    tolerance, and else the one update to snapshot + distance * time.  So a
    move from (0, 0) to (200, 0) is never interpolated, and a move from
    (0, 0) to (5, 0) is pushed as [2.5, 0] at time 0.5 for every bounding box
    (a box has a width and a height of at least 0, so both tolerances are at
    least 10). *)
Theorem position_blend :
  forall (time : R) (target : Target.t) (interpolationData : Snapshot.t)
    (renderer : Renderer.t) (store : Store) (drawable : Renderer.Drawable),
    Target.interpolationData target = Some interpolationData ->
    Renderer.drawable renderer (Target.drawableID target) = Some drawable ->
    let xDistance := Target.x target - Snapshot.x interpolationData in
    let yDistance := Target.y target - Snapshot.y interpolationData in
    let bounds := Renderer.getAABB drawable in
    let xTolerance := Math.min 50 (10 + Renderer.width bounds) in
    let yTolerance := Math.min 50 (10 + Renderer.height bounds) in
    exists issued store',
      interpolateTarget time target (renderer, store)
      = Normal (issue renderer issued, store')
      /\ (Math.abs xDistance <= 0.1 /\ Math.abs yDistance <= 0.1 ->
          positionCalls issued = [])
      /\ (0.1 < Math.abs xDistance \/ 0.1 < Math.abs yDistance ->
          xTolerance <= Math.abs xDistance \/ yTolerance <= Math.abs yDistance ->
          positionCalls issued = [])
      /\ (0.1 < Math.abs xDistance \/ 0.1 < Math.abs yDistance ->
          Math.abs xDistance < xTolerance ->
          Math.abs yDistance < yTolerance ->
          positionCalls issued
          = [Renderer.Position (Target.drawableID target)
               (Snapshot.x interpolationData + xDistance * time,
                Snapshot.y interpolationData + yDistance * time)])
      /\ (Snapshot.x interpolationData = 0 ->
          Snapshot.y interpolationData = 0 ->
          Target.x target = 200 -> Target.y target = 0 ->
          positionCalls issued = [])
      /\ (Snapshot.x interpolationData = 0 ->
          Snapshot.y interpolationData = 0 ->
          Target.x target = 5 -> Target.y target = 0 ->
          time = 0.5 ->
          0 <= Renderer.width bounds -> 0 <= Renderer.height bounds ->
          positionCalls issued
          = [Renderer.Position (Target.drawableID target) (2.5, 0)]).
Proof.
  intros time target data renderer store drawable Hdata Hdrawable
    xDistance yDistance bounds xTolerance yTolerance.
  pose proof (interpolatePosition_normal renderer target data time drawable
                Hdrawable) as Hnormal.
  blocks_of store Hdata Hnormal.
  exists (ps ++ es ++ ds), (store ++ added).
  split; [exact Hrun|]. rewrite Hpc.
  assert (Hskip : Math.abs xDistance <= 0.1 /\ Math.abs yDistance <= 0.1 ->
                  ps = []).
  { intros [Hx Hy]. apply (issue_none_inj renderer), Normal_inj.
    rewrite <- Hps.
    exact (interpolatePosition_unmoved renderer target data time Hx Hy). }
  assert (Hjump : xTolerance <= Math.abs xDistance
                  \/ yTolerance <= Math.abs yDistance -> ps = []).
  { intros Hj. apply (issue_none_inj renderer), Normal_inj.
    rewrite <- Hps.
    exact (interpolatePosition_jump renderer target data time drawable
             Hdrawable Hj). }
  assert (Hblend : 0.1 < Math.abs xDistance \/ 0.1 < Math.abs yDistance ->
                   Math.abs xDistance < xTolerance ->
                   Math.abs yDistance < yTolerance ->
                   ps = [Renderer.Position (Target.drawableID target)
                           (Snapshot.x data + xDistance * time,
                            Snapshot.y data + yDistance * time)]).
  { intros Hm Hx Hy. apply (issue_one_inj renderer).
    pose proof (interpolatePosition_blend renderer target data time drawable
                  Hdrawable Hm Hx Hy) as H.
    apply Normal_inj. rewrite <- Hps. exact H. }
  repeat split; auto.
  - intros Hsx Hsy Hx Hy. apply Hjump. left.
    unfold xTolerance, xDistance. rewrite Hsx, Hx.
    unfold Math.min, Math.abs, Rmin, Rabs.
    destruct (Rle_dec _ _); destruct (Rcase_abs _); lra.
  - intros Hsx Hsy Hx Hy Htime Hw Hh.
    replace (2.5, 0) with (Snapshot.x data + xDistance * time,
                           Snapshot.y data + yDistance * time).
    + apply Hblend; unfold xTolerance, yTolerance, xDistance, yDistance;
        rewrite ?Hsx, ?Hsy, ?Hx, ?Hy;
        [left|..]; unfold Math.min, Math.abs, Rmin, Rabs;
        repeat destruct (Rle_dec _ _); repeat destruct (Rcase_abs _); lra.
    + unfold xDistance, yDistance. rewrite Hsx, Hsy, Hx, Hy, Htime.
      f_equal; lra.
Qed.

Lemma position_blend_witness :
  exists issued store',
    interpolateTarget 0.5
      (Sample.sprite 5 0 90 0 (100, 100) (Some (Sample.snapshot 0 0 90 0)))
      (Sample.renderer, [(100, 100)])
    = Normal (issue Sample.renderer issued, store')
    /\ positionCalls issued = [Renderer.Position 0 (2.5, 0)].
Proof.
  destruct (position_blend 0.5
              (Sample.sprite 5 0 90 0 (100, 100)
                 (Some (Sample.snapshot 0 0 90 0)))
              (Sample.snapshot 0 0 90 0) Sample.renderer [(100, 100)]
              Sample.drawable eq_refl eq_refl)
    as (issued & store' & Hrun & _ & _ & _ & _ & Hmove).
  exists issued, store'. split; [exact Hrun|].
  apply Hmove; cbn; lra.
Defined.

(** ** Ghost blending *)

(** What the effect block does within an iteration: for a change of the
    ghost value of absolute value strictly between 0 and 25 it issues one
    effect update, to the current ghost value plus change * time; for no
    change, or one of at least 25, it issues none. *)
Lemma ghost_blend :
  forall (time : R) (target : Target.t) (interpolationData : Snapshot.t)
    (renderer : Renderer.t) (store : Store) (drawable : Renderer.Drawable),
    Target.interpolationData target = Some interpolationData ->
    Renderer.drawable renderer (Target.drawableID target) = Some drawable ->
    let ghostChange :=
      Effects.ghost (Target.effects target)
      - Snapshot.ghost interpolationData in
    exists issued store',
      interpolateTarget time target (renderer, store)
      = Normal (issue renderer issued, store')
      /\ (0 < Math.abs ghostChange < 25 ->
          effectCalls issued
          = [Renderer.Effect (Target.drawableID target) "ghost"
               (Effects.ghost (Target.effects target) + ghostChange * time)])
      /\ (ghostChange = 0 \/ 25 <= Math.abs ghostChange ->
          effectCalls issued = []).
Proof.
  intros time target data renderer store drawable Hdata Hdrawable ghostChange.
  pose proof (interpolatePosition_normal renderer target data time drawable
                Hdrawable) as Hnormal.
  blocks_of store Hdata Hnormal.
  exists (ps ++ es ++ ds), (store ++ added).
  split; [exact Hrun|]. rewrite Hec. split.
  - intros Hsmall. apply (issue_one_inj (issue renderer ps)).
    rewrite <- Hes.
    exact (interpolateEffect_blend (issue renderer ps) target data time
             Hsmall).
  - intros Hskip. apply (issue_none_inj (issue renderer ps)).
    rewrite <- Hes.
    exact (interpolateEffect_skip (issue renderer ps) target data time
             Hskip).
Qed.

(** Running the loop body on explicit data: the blocks are taken one at a
    time, each by the lemma of its case. *)
Ltac run_position_unmoved :=
  rewrite interpolatePosition_unmoved by real_arith.
Ltac run_effect_skip :=
  rewrite interpolateEffect_skip by (left; real_arith).
Ltac run_effect_blend :=
  rewrite interpolateEffect_blend by (split; real_arith).

(** C1.  A sprite whose ghost value went from 0 to 10 within the tick,
    rendered at time 0.5: the one effect update that [interpolate] issues
    carries 15, the current value plus half the change, where blending from
    the snapshot gives 5. *)
Theorem ghost_blend_from_current_value :
  exists store',
    interpolate
      {| targets :=
           [Sample.sprite 0 0 90 10 (100, 100)
              (Some (Sample.snapshot 0 0 90 0))];
         renderer := Some Sample.renderer |}
      0.5 [(100, 100)]
    = Normal
        ({| targets :=
              [Sample.sprite 0 0 90 10 (100, 100)
                 (Some (Sample.snapshot 0 0 90 0))];
            renderer :=
              Some (issue Sample.renderer
                      [Renderer.Effect 0 "ghost" 15]) |},
         store')
    /\ 15 <> 0 + (10 - 0) * 0.5.
Proof.
  unfold interpolate.
  cbn [renderer targets interpolateTargets interpolateTarget
       Target.interpolationData Sample.sprite].
  fold (Sample.sprite 0 0 90 10 (100, 100)
          (Some (Sample.snapshot 0 0 90 0))).
  run_position_unmoved. run_effect_blend.
  rewrite interpolateDirectionScale_costume_unchanged
    by (cbn; auto with arith).
  unfold scaleIsInterpolated. decide_explicit_tests.
  eexists. split; [|lra].
  unfold Renderer.updateDrawableEffect, Renderer.call, issue.
  replace (10 + (10 - 0) * 0.5) with 15 by lra. reflexivity.
Qed.

(** ** Exceptions *)

Lemma interpolateTarget_throws (time : R) (target : Target.t)
  (renderer : Renderer.t) (store : Store) :
  throws (interpolateTarget time target (renderer, store)) = true
  <-> lacksDrawable renderer target.
Proof.
  unfold lacksDrawable. split.
  - intros Hthrows.
    destruct (Target.interpolationData target) as [data|] eqn:Hdata.
    2: { rewrite interpolateTarget_no_snapshot in Hthrows by assumption.
         discriminate. }
    exists data. split; [reflexivity|].
    destruct (throws (interpolatePosition renderer target data time))
      eqn:Hpos.
    + destruct (Renderer.drawable renderer (Target.drawableID target))
        as [drawable|] eqn:Hdrawable.
      { rewrite (interpolatePosition_normal _ _ _ _ drawable Hdrawable)
          in Hpos. discriminate. }
      split; [|reflexivity].
      destruct (Rlt_dec 0.1 (Math.abs (Target.x target - Snapshot.x data)));
        [now left|].
      destruct (Rlt_dec 0.1 (Math.abs (Target.y target - Snapshot.y data)));
        [now right|].
      rewrite interpolatePosition_unmoved in Hpos by lra. discriminate.
    + destruct (interpolateTarget_blocks time target data renderer store
                  Hdata Hpos) as (ps & es & ds & added & H).
      destruct H as (_ & _ & _ & Hrun & _). rewrite Hrun in Hthrows.
      discriminate.
  - intros (data & Hdata & Hmoved & Hnone).
    unfold interpolateTarget. rewrite Hdata.
    now rewrite interpolatePosition_no_drawable.
Qed.

Lemma lacksDrawable_issue (renderer : Renderer.t) (cs : list Renderer.Call)
  (target : Target.t) :
  lacksDrawable (issue renderer cs) target <-> lacksDrawable renderer target.
Proof. reflexivity. Qed.

Lemma interpolateTargets_throws (time : R) (targets : list Target.t) :
  forall (renderer : Renderer.t) (store : Store),
    throws (interpolateTargets time targets (renderer, store)) = true
    <-> exists target, In target targets /\ lacksDrawable renderer target.
Proof.
  induction targets as [|target rest IH]; intros renderer store.
  - cbn. split; [discriminate | intros (? & [] & _)].
  - cbn [interpolateTargets].
    pose proof (interpolateTarget_throws time target renderer store)
      as Hhead.
    destruct (interpolateTarget_frame time target renderer store)
      as (issued & added & Hframe).
    destruct (interpolateTarget time target (renderer, store))
      as [state | e state]; cbn in Hhead, Hframe; subst state;
      cbv beta iota.
    + rewrite IH. split.
      * intros (t & Hin & Hlacks). exists t. split; [now right|].
        now apply lacksDrawable_issue in Hlacks.
      * intros (t & [<- | Hin] & Hlacks).
        -- apply Hhead in Hlacks. discriminate.
        -- exists t. split; [assumption|]. now apply lacksDrawable_issue.
    + cbn. split; [|reflexivity].
      intros _. exists target. split; [now left | now apply Hhead].
Qed.

(** C2 (as amended).  Without a renderer [interpolate] returns at once and
    changes nothing.  With a renderer it raises a [TypeError] exactly when
    some target with a snapshot has moved by more than 0.1 along an axis and
    its drawable id has no drawable in the renderer: the bounding box is
    asked of the drawable without a check that there is one.  Targets
    without a snapshot are skipped, and [setupInitialState] performs no
    operation that can raise. *)
Theorem interpolate_raises_iff :
  forall (runtime : Runtime) (time : R) (store : Store),
    (renderer runtime = None ->
     interpolate runtime time store = Normal (runtime, store))
    /\ (forall r, renderer runtime = Some r ->
        (throws (interpolate runtime time store) = true
         <-> exists target,
               In target (targets runtime) /\ lacksDrawable r target))
    /\ (forall target state,
          Target.interpolationData target = None ->
          interpolateTarget time target state = Normal state)
    /\ exists runtime' store',
         setupInitialState runtime store = (runtime', store').
Proof.
  intros runtime time store. repeat split.
  - apply interpolate_headless.
  - destruct (interpolate_with_renderer runtime time store r H) as [-> _].
    apply interpolateTargets_throws.
  - destruct (interpolate_with_renderer runtime time store r H) as [-> _].
    apply interpolateTargets_throws.
  - intros. now apply interpolateTarget_no_snapshot.
  - destruct (setupInitialState runtime store) as [runtime' store'].
    now exists runtime', store'.
Qed.

Lemma interpolate_raises_iff_witness :
  throws
    (interpolate
       {| targets :=
            [Sample.sprite 5 0 90 0 (100, 100)
               (Some (Sample.snapshot 0 0 90 0))];
          renderer := Some Sample.renderer |}
       0.5 [(100, 100)])
  = false.
Proof.
  destruct (interpolate_raises_iff
              {| targets :=
                   [Sample.sprite 5 0 90 0 (100, 100)
                      (Some (Sample.snapshot 0 0 90 0))];
                 renderer := Some Sample.renderer |} 0.5 [(100, 100)])
    as (_ & Hiff & _).
  specialize (Hiff Sample.renderer eq_refl).
  destruct (throws _); [|reflexivity].
  destruct (proj1 Hiff eq_refl) as (target & [<- | []] & data & _ & _ & Hnone).
  discriminate Hnone.
Defined.

(** C2 (as stated) fails: a sprite that moved from (0, 0) to (5, 0), in a
    renderer that has no drawable for it, makes [interpolate] raise. *)
Lemma interpolate_raises_without_drawable :
  interpolate
    {| targets :=
         [Sample.sprite 5 0 90 0 (100, 100)
            (Some (Sample.snapshot 0 0 90 0))];
       renderer := Some Sample.emptyRenderer |}
    0.5 [(100, 100)]
  = Throw TypeError
      ({| targets :=
            [Sample.sprite 5 0 90 0 (100, 100)
               (Some (Sample.snapshot 0 0 90 0))];
          renderer := Some Sample.emptyRenderer |},
       [(100, 100)]).
Proof.
  unfold interpolate.
  cbn [renderer targets interpolateTargets interpolateTarget
       Target.interpolationData Sample.sprite].
  fold (Sample.sprite 5 0 90 0 (100, 100)
          (Some (Sample.snapshot 0 0 90 0))).
  rewrite interpolatePosition_no_drawable;
    [reflexivity | left; real_arith | reflexivity].
Qed.

(** ** What [interpolate] leaves alone *)

Lemma issueTo_nil (runtime : Runtime) : issueTo runtime [] = runtime.
Proof.
  destruct runtime as [ts [r|]]; unfold issueTo; cbn; [|reflexivity].
  now rewrite issue_nil.
Qed.

Lemma issueTo_issueTo (runtime : Runtime) (cs ds : list Renderer.Call) :
  issueTo (issueTo runtime cs) ds = issueTo runtime (cs ++ ds).
Proof.
  destruct runtime as [ts [r|]]; unfold issueTo; cbn; [|reflexivity].
  now rewrite issue_issue.
Qed.

Lemma interpolate_frame_once (runtime : Runtime) (time : R) (store : Store) :
  exists issued added,
    stateOf (interpolate runtime time store)
    = (issueTo runtime issued, store ++ added).
Proof.
  destruct (renderer runtime) as [r|] eqn:Hr.
  - destruct (interpolate_with_renderer runtime time store r Hr) as [_ ->].
    destruct (interpolateTargets_frame time (targets runtime) r store)
      as (issued & added & ->).
    exists issued, added. unfold issueTo. now rewrite Hr.
  - rewrite interpolate_headless by assumption.
    exists [], []. cbn. now rewrite issueTo_nil, app_nil_r.
Qed.

Lemma renderPasses_frame (times : list R) :
  forall (runtime : Runtime) (store : Store),
  exists issued added,
    renderPasses times runtime store
    = (issueTo runtime issued, store ++ added).
Proof.
  induction times as [|time rest IH]; intros runtime store.
  - exists [], []. cbn. now rewrite issueTo_nil, app_nil_r.
  - destruct (interpolate_frame_once runtime time store)
      as (issued & added & Hfirst).
    cbn [renderPasses]. rewrite Hfirst.
    destruct (IH (issueTo runtime issued) (store ++ added))
      as (issued' & added' & Hrest).
    exists (issued ++ issued'), (added ++ added').
    rewrite <- issueTo_issueTo, app_assoc. exact Hrest.
Qed.

(** C5.  However many times, and at whatever times, [interpolate] is called
    on a runtime, and whether or not a call raises, the targets are
    afterwards what they were: the x, y, effects, currentCostume and
    interpolationData of each; every array that was in the store, the scale
    arrays of the snapshots among them, holds the same elements; and the
    renderer has only been issued calls. *)
Theorem interpolate_changes_no_target :
  forall (times : list R) (runtime : Runtime) (store : Store),
    let runtime' := fst (renderPasses times runtime store) in
    let store' := snd (renderPasses times runtime store) in
    targets runtime' = targets runtime
    /\ Forall2
         (fun target target' =>
            Target.x target' = Target.x target
            /\ Target.y target' = Target.y target
            /\ Target.effects target' = Target.effects target
            /\ Target.currentCostume target' = Target.currentCostume target
            /\ Target.interpolationData target'
               = Target.interpolationData target)
         (targets runtime) (targets runtime')
    /\ (forall p, (p < List.length store)%nat -> load store' p = load store p)
    /\ exists issued,
         renderer runtime'
         = option_map (fun r => issue r issued) (renderer runtime).
Proof.
  intros times runtime store.
  destruct (renderPasses_frame times runtime store)
    as (issued & added & Hframe).
  cbv zeta. rewrite Hframe. cbn [fst snd issueTo targets renderer].
  repeat split.
  - induction (targets runtime); constructor; auto.
  - intros p Hp. unfold load. now rewrite app_nth1.
  - now exists issued.
Qed.

(** ** Snapshot capture *)

Lemma setupTarget_captured (target : Target.t) (store : Store) :
  exists added,
    snd (setupTarget target store) = store ++ added
    /\ forall later,
         captured (snd (setupTarget target store) ++ later) target
           (fst (setupTarget target store)).
Proof.
  unfold setupTarget, getRenderedDirectionAndScale, allocate, captured.
  destruct (Target.visible target), (Target.isStage target);
    cbn [andb negb fst snd].
  2: { exists [Target.renderedScale target]. split; [reflexivity|].
       intros later. repeat split.
       - intros _ _. eexists. split; [reflexivity|].
         cbn. repeat split.
         unfold load. rewrite <- app_assoc. cbn [app].
         now rewrite nth_middle.
       - intros [|]; discriminate. }
  all: exists []; rewrite app_nil_r; split; [reflexivity|];
    intros later; repeat split; try discriminate; reflexivity.
Qed.

Lemma captured_later (store : Store) (target target' : Target.t) :
  (forall later, captured (store ++ later) target target') ->
  forall added later, captured ((store ++ added) ++ later) target target'.
Proof. intros H added later. rewrite <- app_assoc. apply H. Qed.

Lemma setupTargets_captured (targets : list Target.t) :
  forall store : Store,
  exists added,
    snd (setupTargets targets store) = store ++ added
    /\ forall later,
         Forall2 (captured (snd (setupTargets targets store) ++ later))
           targets (fst (setupTargets targets store)).
Proof.
  induction targets as [|target rest IH]; intros store.
  - exists []. cbn. rewrite app_nil_r. split; [reflexivity | constructor].
  - cbn [setupTargets].
    destruct (setupTarget_captured target store) as (added & Hstore & Hhead).
    destruct (setupTarget target store) as [target' store1].
    cbn [fst snd] in Hstore, Hhead. subst store1.
    destruct (IH (store ++ added)) as (added' & Hstore' & Hrest).
    destruct (setupTargets rest (store ++ added)) as [rest' store2].
    cbn [fst snd] in *. subst store2.
    exists (added ++ added'). split; [now rewrite app_assoc|].
    intros later. constructor; [|apply Hrest].
    apply captured_later. exact Hhead.
Qed.

(** C6.  After [setupInitialState], every target that is visible and is not
    the stage holds a snapshot of exactly its x, y, rendered direction,
    rendered scale, currentCostume and ghost value at the time of the call,
    every other target holds none ([null]), and nothing else about the
    targets or the renderer has changed. *)
Theorem setupInitialState_captures :
  forall (runtime : Runtime) (store : Store),
    let runtime' := fst (setupInitialState runtime store) in
    let store' := snd (setupInitialState runtime store) in
    renderer runtime' = renderer runtime
    /\ Forall2 (captured store') (targets runtime) (targets runtime').
Proof.
  intros runtime store. cbv zeta. unfold setupInitialState.
  destruct (setupTargets_captured (targets runtime) store)
    as (added & _ & Hcaptured).
  destruct (setupTargets (targets runtime) store) as [targets' store'].
  cbn [fst snd targets renderer] in *. split; [reflexivity|].
  specialize (Hcaptured []). now rewrite app_nil_r in Hcaptured.
Qed.

(** ** Direction and scale blending *)

Lemma scaleIsInterpolated_true (scale startingScale : ScaleArray) :
  scaleIsInterpolated scale startingScale = true
  <-> (fst scale <> fst startingScale \/ snd scale <> snd startingScale)
      /\ Math.sign (fst scale) = Math.sign (fst startingScale)
      /\ Math.sign (snd scale) = Math.sign (snd startingScale)
      /\ Math.abs (fst scale - fst startingScale) < 100
      /\ Math.abs (snd scale - snd startingScale) < 100.
Proof.
  unfold scaleIsInterpolated.
  rewrite !andb_true_iff, orb_true_iff, !NumberFacts.strictNotEqual_true,
    !NumberFacts.strictEqual_true, !NumberFacts.lt_true.
  tauto.
Qed.

Lemma scaleIsInterpolated_false (scale startingScale : ScaleArray) :
  (fst scale = fst startingScale /\ snd scale = snd startingScale)
  \/ Math.sign (fst scale) <> Math.sign (fst startingScale)
  \/ Math.sign (snd scale) <> Math.sign (snd startingScale)
  \/ 100 <= Math.abs (fst scale - fst startingScale)
  \/ 100 <= Math.abs (snd scale - snd startingScale) ->
  scaleIsInterpolated scale startingScale = false.
Proof.
  intros H. apply not_true_is_false. rewrite scaleIsInterpolated_true.
  intros (Hdiff & Hs0 & Hs1 & Hc0 & Hc1).
  destruct H as [[H0 H1] | [H | [H | [H | H]]]]; try tauto; lra.
Qed.

(** The direction and scale update of one iteration, for a target in the
    costume of its snapshot. *)
Lemma direction_scale_update :
  forall (time : R) (target : Target.t) (interpolationData : Snapshot.t)
    (renderer : Renderer.t) (store : Store) (drawable : Renderer.Drawable),
    Target.interpolationData target = Some interpolationData ->
    Renderer.drawable renderer (Target.drawableID target) = Some drawable ->
    Snapshot.costume interpolationData = Target.currentCostume target ->
    (Snapshot.scale interpolationData < List.length store)%nat ->
    let scale := Target.renderedScale target in
    let startingScale := load store (Snapshot.scale interpolationData) in
    let directionChanged :=
      Number.strictNotEqual (Target.renderedDirection target)
        (Snapshot.direction interpolationData) in
    exists issued store',
      interpolateTarget time target (renderer, store)
      = Normal (issue renderer issued, store')
      /\ directionScaleCalls issued
         = if directionChanged || scaleIsInterpolated scale startingScale
           then
             [Renderer.DirectionScale (Target.drawableID target)
                (if directionChanged then
                   interpolatedDirection (Target.renderedDirection target)
                     (Snapshot.direction interpolationData) time
                 else Target.renderedDirection target)
                (if scaleIsInterpolated scale startingScale then
                   interpolatedScale scale startingScale time
                 else scale)]
           else [].
Proof.
  intros time target data renderer store drawable Hdata Hdrawable Hcostume
    Hallocated scale startingScale directionChanged.
  pose proof (interpolatePosition_normal renderer target data time drawable
                Hdrawable) as Hnormal.
  blocks_of store Hdata Hnormal.
  exists (ps ++ es ++ ds), (store ++ added).
  split; [exact Hrun|]. rewrite Hdc.
  rewrite (interpolateDirectionScale_costume_unchanged _ store target data
             time Hcostume Hallocated) in Hds.
  cbv zeta in Hds. fold scale startingScale directionChanged in Hds.
  apply (f_equal fst) in Hds. cbn [fst] in Hds.
  destruct (directionChanged || scaleIsInterpolated scale startingScale).
  - symmetry in Hds. now apply issue_one_inj in Hds.
  - symmetry in Hds. now apply issue_none_inj in Hds.
Qed.

(** C8.  For a target with a snapshot whose currentCostume is not the
    costume of the snapshot, one iteration of the loop of [interpolate]
    issues no direction and scale update, whatever the rendered direction
    and scale are (and whether or not the iteration ends by raising). *)
Theorem costume_change_guard :
  forall (time : R) (target : Target.t) (interpolationData : Snapshot.t)
    (renderer : Renderer.t) (store : Store),
    Target.interpolationData target = Some interpolationData ->
    Snapshot.costume interpolationData <> Target.currentCostume target ->
    exists issued store',
      stateOf (interpolateTarget time target (renderer, store))
      = (issue renderer issued, store')
      /\ directionScaleCalls issued = [].
Proof.
  intros time target data renderer store Hdata Hcostume.
  destruct (throws (interpolatePosition renderer target data time))
    eqn:Hthrows.
  - destruct (interpolatePosition_issues renderer target data time)
      as (ps & Hps & Hp).
    exists ps, store. unfold interpolateTarget. rewrite Hdata.
    destruct (interpolatePosition renderer target data time);
      [discriminate|].
    cbn in Hps |- *. split; [now rewrite Hps|].
    destruct Hp as [-> | (c & -> & Hc)]; [reflexivity|].
    destruct c; try discriminate. reflexivity.
  - blocks_of store Hdata Hthrows.
    exists (ps ++ es ++ ds), (store ++ added).
    rewrite Hrun. split; [reflexivity|]. rewrite Hdc.
    rewrite interpolateDirectionScale_costume_changed in Hds by assumption.
    apply (f_equal fst) in Hds. cbn [fst] in Hds. symmetry in Hds.
    now apply issue_none_inj in Hds.
Qed.

Lemma costume_change_guard_witness :
  exists issued store',
    stateOf
      (interpolateTarget 0.5
         (Sample.sprite 0 0 (-90) 0 (50, 50)
            (Some {| Snapshot.x := 0; Snapshot.y := 0;
                     Snapshot.direction := 90; Snapshot.scale := 0%nat;
                     Snapshot.costume := 1%nat; Snapshot.ghost := 0 |}))
         (Sample.renderer, [(100, 100)]))
    = (issue Sample.renderer issued, store')
    /\ directionScaleCalls issued = [].
Proof.
  apply (costume_change_guard 0.5
           (Sample.sprite 0 0 (-90) 0 (50, 50)
              (Some {| Snapshot.x := 0; Snapshot.y := 0;
                       Snapshot.direction := 90; Snapshot.scale := 0%nat;
                       Snapshot.costume := 1%nat; Snapshot.ghost := 0 |}))
           _ Sample.renderer [(100, 100)] eq_refl).
  cbn. discriminate.
Defined.

(** C9.  For a target with a snapshot, in the costume of the snapshot, whose
    rendered scale differs from the snapshot's on an axis: when on each axis
    the sign is that of the snapshot and the absolute change is less than
    100, the update carries the scale snapshot + change * time on each axis;
    when a sign differs (as between [1, 1] and [-1, 1]) or a change is at
    least 100, the scale is not interpolated: an update is issued only for a
    change of direction, and then carries the current scale. *)
Theorem scale_blend_guard :
  forall (time : R) (target : Target.t) (interpolationData : Snapshot.t)
    (renderer : Renderer.t) (store : Store) (drawable : Renderer.Drawable),
    Target.interpolationData target = Some interpolationData ->
    Renderer.drawable renderer (Target.drawableID target) = Some drawable ->
    Snapshot.costume interpolationData = Target.currentCostume target ->
    (Snapshot.scale interpolationData < List.length store)%nat ->
    let scale := Target.renderedScale target in
    let startingScale := load store (Snapshot.scale interpolationData) in
    let direction := Target.renderedDirection target in
    let startingDirection := Snapshot.direction interpolationData in
    fst scale <> fst startingScale \/ snd scale <> snd startingScale ->
    exists issued store',
      interpolateTarget time target (renderer, store)
      = Normal (issue renderer issued, store')
      /\ (Math.sign (fst scale) = Math.sign (fst startingScale) ->
          Math.sign (snd scale) = Math.sign (snd startingScale) ->
          Math.abs (fst scale - fst startingScale) < 100 ->
          Math.abs (snd scale - snd startingScale) < 100 ->
          directionScaleCalls issued
          = [Renderer.DirectionScale (Target.drawableID target)
               (if Number.strictNotEqual direction startingDirection then
                  interpolatedDirection direction startingDirection time
                else direction)
               (fst startingScale + (fst scale - fst startingScale) * time,
                snd startingScale + (snd scale - snd startingScale) * time)])
      /\ (Math.sign (fst scale) <> Math.sign (fst startingScale)
          \/ Math.sign (snd scale) <> Math.sign (snd startingScale)
          \/ 100 <= Math.abs (fst scale - fst startingScale)
          \/ 100 <= Math.abs (snd scale - snd startingScale) ->
          (direction <> startingDirection ->
           directionScaleCalls issued
           = [Renderer.DirectionScale (Target.drawableID target)
                (interpolatedDirection direction startingDirection time)
                scale])
          /\ (direction = startingDirection ->
              directionScaleCalls issued = [])).
Proof.
  intros time target data renderer store drawable Hdata Hdrawable Hcostume
    Hallocated scale startingScale direction startingDirection Hdiffers.
  destruct (direction_scale_update time target data renderer store drawable
              Hdata Hdrawable Hcostume Hallocated)
    as (issued & store' & Hrun & Hcalls).
  fold scale startingScale direction startingDirection in Hcalls.
  exists issued, store'. split; [exact Hrun|]. split.
  - intros Hs0 Hs1 Hc0 Hc1.
    assert (Hyes : scaleIsInterpolated scale startingScale = true)
      by (apply scaleIsInterpolated_true; auto).
    rewrite Hyes, orb_true_r in Hcalls. exact Hcalls.
  - intros Hguard.
    assert (Hno : scaleIsInterpolated scale startingScale = false)
      by (apply scaleIsInterpolated_false; tauto).
    rewrite Hno, orb_false_r in Hcalls. split; intros Hdirection.
    + apply NumberFacts.strictNotEqual_true in Hdirection.
      now rewrite Hdirection in Hcalls.
    + apply NumberFacts.strictNotEqual_false in Hdirection.
      now rewrite Hdirection in Hcalls.
Qed.

(** The scale [1, 1] of the snapshot against the current scale [-1, 1], with
    the direction turned from 90 to -90: the update carries [-1, 1]. *)
Lemma scale_blend_guard_witness :
  exists issued store',
    interpolateTarget 0.5
      (Sample.sprite 0 0 (-90) 0 (-1, 1) (Some (Sample.snapshot 0 0 90 0)))
      (Sample.renderer, [(1, 1)])
    = Normal (issue Sample.renderer issued, store')
    /\ directionScaleCalls issued
       = [Renderer.DirectionScale 0 (interpolatedDirection (-90) 90 0.5)
            (-1, 1)].
Proof.
  destruct (scale_blend_guard 0.5
              (Sample.sprite 0 0 (-90) 0 (-1, 1)
                 (Some (Sample.snapshot 0 0 90 0)))
              (Sample.snapshot 0 0 90 0) Sample.renderer [(1, 1)]
              Sample.drawable eq_refl eq_refl eq_refl (Nat.lt_0_succ 0))
    as (issued & store' & Hrun & _ & Hguard).
  - left. cbn. lra.
  - exists issued, store'. split; [exact Hrun|].
    apply Hguard.
    + left. cbn. unfold Math.sign.
      destruct (Rlt_dec 0 (-1)); [lra|].
      destruct (Rlt_dec (-1) 0); [|lra].
      destruct (Rlt_dec 0 1); lra.
    + cbn. lra.
Defined.

(** C10.  Whenever the rendered direction of a target differs from that of
    its snapshot (in the costume of the snapshot), the iteration issues a
    direction and scale update whose direction is the blended one, and that
    direction lies between -180 and 180 degrees, whatever the two
    directions and the time are. *)
Theorem blended_direction_range :
  forall (time : R) (target : Target.t) (interpolationData : Snapshot.t)
    (renderer : Renderer.t) (store : Store) (drawable : Renderer.Drawable),
    Target.interpolationData target = Some interpolationData ->
    Renderer.drawable renderer (Target.drawableID target) = Some drawable ->
    Snapshot.costume interpolationData = Target.currentCostume target ->
    (Snapshot.scale interpolationData < List.length store)%nat ->
    Target.renderedDirection target <> Snapshot.direction interpolationData ->
    exists issued store' direction scale,
      interpolateTarget time target (renderer, store)
      = Normal (issue renderer issued, store')
      /\ directionScaleCalls issued
         = [Renderer.DirectionScale (Target.drawableID target) direction
              scale]
      /\ direction
         = interpolatedDirection (Target.renderedDirection target)
             (Snapshot.direction interpolationData) time
      /\ -180 <= direction <= 180.
Proof.
  intros time target data renderer store drawable Hdata Hdrawable Hcostume
    Hallocated Hdirection.
  destruct (direction_scale_update time target data renderer store drawable
              Hdata Hdrawable Hcostume Hallocated)
    as (issued & store' & Hrun & Hcalls).
  apply NumberFacts.strictNotEqual_true in Hdirection.
  rewrite Hdirection in Hcalls. cbn [orb] in Hcalls.
  exists issued, store'. do 2 eexists.
  split; [exact Hrun|]. split; [exact Hcalls|]. split; [reflexivity|].
  pose proof (interpolatedDirection_range (Target.renderedDirection target)
                (Snapshot.direction data) time). lra.
Qed.

Lemma blended_direction_range_witness :
  exists issued store' direction scale,
    interpolateTarget 0.5
      (Sample.sprite 0 0 540 0 (1, 1) (Some (Sample.snapshot 0 0 (-270) 0)))
      (Sample.renderer, [(1, 1)])
    = Normal (issue Sample.renderer issued, store')
    /\ directionScaleCalls issued = [Renderer.DirectionScale 0 direction scale]
    /\ direction = interpolatedDirection 540 (-270) 0.5
    /\ -180 <= direction <= 180.
Proof.
  apply (blended_direction_range 0.5
           (Sample.sprite 0 0 540 0 (1, 1)
              (Some (Sample.snapshot 0 0 (-270) 0)))
           (Sample.snapshot 0 0 (-270) 0) Sample.renderer [(1, 1)]
           Sample.drawable eq_refl eq_refl eq_refl (Nat.lt_0_succ 0)).
  cbn. lra.
Defined.

(** ** The calls of an iteration, all together *)

Lemma interpolatePosition_call (renderer : Renderer.t) (target : Target.t)
  (interpolationData : Snapshot.t) (time : R) (ps : list Renderer.Call) :
  stateOf (interpolatePosition renderer target interpolationData time)
  = issue renderer ps ->
  forall c, In c ps ->
    c = Renderer.Position (Target.drawableID target)
          (Snapshot.x interpolationData
           + (Target.x target - Snapshot.x interpolationData) * time,
           Snapshot.y interpolationData
           + (Target.y target - Snapshot.y interpolationData) * time).
Proof.
  unfold interpolatePosition. intros Hps c Hin.
  destruct (_ || _);
    [destruct (Renderer.drawable _ _); [destruct (_ && _)|]|];
    cbn [stateOf] in Hps; symmetry in Hps.
  2-4: apply issue_none_inj in Hps; subst ps; destruct Hin.
  apply issue_one_inj in Hps. subst ps.
  destruct Hin as [<- | []]. reflexivity.
Qed.

Lemma interpolateEffect_call (renderer : Renderer.t) (target : Target.t)
  (interpolationData : Snapshot.t) (time : R) (es : list Renderer.Call) :
  interpolateEffect renderer target interpolationData time
  = issue renderer es ->
  forall c, In c es ->
    c = Renderer.Effect (Target.drawableID target) "ghost"
          (Effects.ghost (Target.effects target)
           + (Effects.ghost (Target.effects target)
              - Snapshot.ghost interpolationData) * time).
Proof.
  unfold interpolateEffect. intros Hes c Hin.
  destruct (_ && _); symmetry in Hes.
  - apply issue_one_inj in Hes. subst es. destruct Hin as [<- | []].
    reflexivity.
  - apply issue_none_inj in Hes. subst es. destruct Hin.
Qed.

(** For a target with a snapshot whose drawable is in the renderer, the
    iteration completes normally, and its calls are: at most one position
    update, to the blended position; at most one effect update; and, in the
    costume of the snapshot, the direction and scale update of
    [direction_scale_update]. *)
Lemma iteration_calls :
  forall (time : R) (target : Target.t) (interpolationData : Snapshot.t)
    (renderer : Renderer.t) (store : Store) (drawable : Renderer.Drawable),
    Target.interpolationData target = Some interpolationData ->
    Renderer.drawable renderer (Target.drawableID target) = Some drawable ->
    exists issued store',
      interpolateTarget time target (renderer, store)
      = Normal (issue renderer issued, store')
      /\ (forall c, In c (positionCalls issued) ->
          c = Renderer.Position (Target.drawableID target)
                (Snapshot.x interpolationData
                 + (Target.x target - Snapshot.x interpolationData) * time,
                 Snapshot.y interpolationData
                 + (Target.y target - Snapshot.y interpolationData) * time))
      /\ (forall c, In c (effectCalls issued) ->
          c = Renderer.Effect (Target.drawableID target) "ghost"
                (Effects.ghost (Target.effects target)
                 + (Effects.ghost (Target.effects target)
                    - Snapshot.ghost interpolationData) * time))
      /\ (Snapshot.costume interpolationData <> Target.currentCostume target ->
          directionScaleCalls issued = [])
      /\ (Snapshot.costume interpolationData = Target.currentCostume target ->
          (Snapshot.scale interpolationData < List.length store)%nat ->
          forall c, In c (directionScaleCalls issued) ->
            let scale := Target.renderedScale target in
            let startingScale :=
              load store (Snapshot.scale interpolationData) in
            c = Renderer.DirectionScale (Target.drawableID target)
                  (if Number.strictNotEqual (Target.renderedDirection target)
                        (Snapshot.direction interpolationData)
                   then
                     interpolatedDirection (Target.renderedDirection target)
                       (Snapshot.direction interpolationData) time
                   else Target.renderedDirection target)
                  (if scaleIsInterpolated scale startingScale then
                     interpolatedScale scale startingScale time
                   else scale)).
Proof.
  intros time target data renderer store drawable Hdata Hdrawable.
  pose proof (interpolatePosition_normal renderer target data time drawable
                Hdrawable) as Hnormal.
  blocks_of store Hdata Hnormal.
  exists (ps ++ es ++ ds), (store ++ added).
  split; [exact Hrun|]. rewrite Hpc, Hec, Hdc. repeat split.
  - apply (interpolatePosition_call renderer). now rewrite Hps.
  - apply (interpolateEffect_call (issue renderer ps)). exact Hes.
  - intros Hcostume.
    rewrite interpolateDirectionScale_costume_changed in Hds by assumption.
    apply (f_equal fst) in Hds. cbn [fst] in Hds. symmetry in Hds.
    now apply issue_none_inj in Hds.
  - intros Hcostume Hallocated c Hin.
    rewrite (interpolateDirectionScale_costume_unchanged _ store target data
               time Hcostume Hallocated) in Hds.
    cbv zeta in Hds |- *.
    apply (f_equal fst) in Hds. cbn [fst] in Hds. symmetry in Hds.
    destruct (_ || _).
    + apply issue_one_inj in Hds. subst ds. destruct Hin as [<- | []].
      reflexivity.
    + apply issue_none_inj in Hds. subst ds. destruct Hin.
Qed.

(** ** The two ends of the tick *)

Lemma in_positionCalls (cs : list Renderer.Call) (id : nat) (p : R * R) :
  In (Renderer.Position id p) cs ->
  In (Renderer.Position id p) (positionCalls cs).
Proof. intros H. apply filter_In. now split. Qed.

Lemma in_directionScaleCalls (cs : list Renderer.Call) (id : nat) (d : R)
  (s : ScaleArray) :
  In (Renderer.DirectionScale id d s) cs ->
  In (Renderer.DirectionScale id d s) (directionScaleCalls cs).
Proof. intros H. apply filter_In. now split. Qed.

Lemma interpolatedScale_start (scale startingScale : ScaleArray) :
  interpolatedScale scale startingScale 0 = startingScale.
Proof.
  unfold interpolatedScale. destruct startingScale as [s0 s1].
  cbn [fst snd]. f_equal; lra.
Qed.

Lemma interpolatedScale_end (scale startingScale : ScaleArray) :
  interpolatedScale scale startingScale 1 = scale.
Proof.
  unfold interpolatedScale. destruct scale as [c0 c1].
  cbn [fst snd]. f_equal; lra.
Qed.

(** What does hold at the two ends of the tick, for a target with a snapshot
    and a drawable: at time 0 a position update carries the position of the
    snapshot, and a direction and scale update carries the direction of the
    snapshot (for a direction of the half-open turn from -180 to 180) and,
    unless a sign differs or a change of scale is 100 or more on an axis,
    the scale of the snapshot; at time 1 a position update carries the
    current position and a direction and scale update the current scale. *)
Lemma boundary_times :
  forall (target : Target.t) (interpolationData : Snapshot.t)
    (renderer : Renderer.t) (store : Store) (drawable : Renderer.Drawable),
    Target.interpolationData target = Some interpolationData ->
    Renderer.drawable renderer (Target.drawableID target) = Some drawable ->
    (Snapshot.scale interpolationData < List.length store)%nat ->
    let scale := Target.renderedScale target in
    let startingScale := load store (Snapshot.scale interpolationData) in
    exists issued0 store0 issued1 store1,
      interpolateTarget 0 target (renderer, store)
      = Normal (issue renderer issued0, store0)
      /\ interpolateTarget 1 target (renderer, store)
         = Normal (issue renderer issued1, store1)
      /\ (forall id position,
            In (Renderer.Position id position) issued0 ->
            position
            = (Snapshot.x interpolationData, Snapshot.y interpolationData))
      /\ (forall id position,
            In (Renderer.Position id position) issued1 ->
            position = (Target.x target, Target.y target))
      /\ (forall id direction s,
            In (Renderer.DirectionScale id direction s) issued0 ->
            (-180 < Snapshot.direction interpolationData <= 180 ->
             direction = Snapshot.direction interpolationData)
            /\ (Math.sign (fst scale) = Math.sign (fst startingScale) ->
                Math.sign (snd scale) = Math.sign (snd startingScale) ->
                Math.abs (fst scale - fst startingScale) < 100 ->
                Math.abs (snd scale - snd startingScale) < 100 ->
                s = startingScale))
      /\ (forall id direction s,
            In (Renderer.DirectionScale id direction s) issued1 ->
            s = scale).
Proof.
  intros target data renderer store drawable Hdata Hdrawable Hallocated
    scale startingScale.
  destruct (iteration_calls 0 target data renderer store drawable Hdata
              Hdrawable)
    as (issued0 & store0 & Hrun0 & Hp0 & _ & Hchanged0 & Hds0).
  destruct (iteration_calls 1 target data renderer store drawable Hdata
              Hdrawable)
    as (issued1 & store1 & Hrun1 & Hp1 & _ & Hchanged1 & Hds1).
  exists issued0, store0, issued1, store1.
  split; [exact Hrun0|]. split; [exact Hrun1|].
  split; [|split; [|split]].
  - intros id p Hin. apply in_positionCalls, Hp0 in Hin.
    injection Hin as _ ->. f_equal; lra.
  - intros id p Hin. apply in_positionCalls, Hp1 in Hin.
    injection Hin as _ ->. f_equal; lra.
  - intros id d s Hin. apply in_directionScaleCalls in Hin.
    destruct (Nat.eq_dec (Snapshot.costume data)
                (Target.currentCostume target)) as [Hcostume | Hcostume].
    2: { rewrite (Hchanged0 Hcostume) in Hin. destruct Hin. }
    apply (Hds0 Hcostume Hallocated) in Hin. cbv zeta in Hin.
    fold scale startingScale in Hin. injection Hin as _ -> ->. split.
    + intros Hrange.
      destruct (Number.strictNotEqual _ _) eqn:Hdirection.
      * now apply interpolatedDirection_start.
      * now apply NumberFacts.strictNotEqual_false in Hdirection.
    + intros Hs0 Hs1 Hc0 Hc1.
      destruct (scaleIsInterpolated scale startingScale) eqn:Hscale.
      * apply interpolatedScale_start.
      * destruct (Req_dec_T (fst scale) (fst startingScale)) as [H0 | H0];
          [destruct (Req_dec_T (snd scale) (snd startingScale))
             as [H1 | H1]|].
        -- destruct scale, startingScale. cbn in H0, H1. now subst.
        -- assert (scaleIsInterpolated scale startingScale = true)
             by (apply scaleIsInterpolated_true; auto).
           congruence.
        -- assert (scaleIsInterpolated scale startingScale = true)
             by (apply scaleIsInterpolated_true; auto).
           congruence.
  - intros id d s Hin. apply in_directionScaleCalls in Hin.
    destruct (Nat.eq_dec (Snapshot.costume data)
                (Target.currentCostume target)) as [Hcostume | Hcostume].
    2: { rewrite (Hchanged1 Hcostume) in Hin. destruct Hin. }
    apply (Hds1 Hcostume Hallocated) in Hin. cbv zeta in Hin.
    fold scale startingScale in Hin. injection Hin as _ _ ->.
    destruct (scaleIsInterpolated scale startingScale); [|reflexivity].
    apply interpolatedScale_end.
Qed.

(** ** The wrap-around turn *)

(** C4.  A sprite whose snapshot has the direction 350 and whose direction
    is now 10, rendered at time 0.5: the direction that [interpolate] gives
    the renderer is strictly between -10 and 0 degrees (about -3.36), on the
    short arc but not the 0 degrees half way, nor any other multiple of 360
    degrees. *)
Theorem wrap_around_turn_at_half_time :
  exists direction store',
    interpolate
      {| targets :=
           [Sample.sprite 0 0 10 0 (1, 1)
              (Some (Sample.snapshot 0 0 350 0))];
         renderer := Some Sample.renderer |}
      0.5 [(1, 1)]
    = Normal
        ({| targets :=
              [Sample.sprite 0 0 10 0 (1, 1)
                 (Some (Sample.snapshot 0 0 350 0))];
            renderer :=
              Some (issue Sample.renderer
                      [Renderer.DirectionScale 0 direction (1, 1)]) |},
         store')
    /\ direction = interpolatedDirection 10 350 0.5
    /\ -10 < direction < 0
    /\ forall k : Z, direction <> 360 * IZR k.
Proof.
  unfold interpolate.
  cbn [renderer targets interpolateTargets interpolateTarget
       Target.interpolationData Sample.sprite].
  fold (Sample.sprite 0 0 10 0 (1, 1) (Some (Sample.snapshot 0 0 350 0))).
  run_position_unmoved. run_effect_skip.
  rewrite interpolateDirectionScale_costume_unchanged
    by (cbn; auto with arith).
  unfold scaleIsInterpolated. decide_explicit_tests.
  pose proof interpolatedDirection_350_10_half as Hbounds.
  do 2 eexists. split; [reflexivity|]. split; [reflexivity|].
  split; [exact Hbounds|].
  intros k Hk. rewrite Hk in Hbounds.
  destruct (Z.lt_ge_cases k 0) as [Hneg | Hpos].
  - assert (IZR k <= IZR (-1)) by (apply IZR_le; lia). lra.
  - assert (IZR 0 <= IZR k) by (apply IZR_le; lia). lra.
Qed.

(** ** Instances *)

(** Three render passes over a sprite that moved, turned and grew: the scale
    array of its snapshot still holds [1, 1]. *)
Lemma interpolate_changes_no_target_witness :
  load
    (snd
       (renderPasses [0; 0.5; 1]
          {| targets :=
               [Sample.sprite 5 0 45 0 (2, 2)
                  (Some (Sample.snapshot 0 0 90 0))];
             renderer := Some Sample.renderer |}
          [(1, 1)]))
    (Snapshot.scale (Sample.snapshot 0 0 90 0))
  = (1, 1).
Proof.
  destruct (interpolate_changes_no_target [0; 0.5; 1]
              {| targets :=
                   [Sample.sprite 5 0 45 0 (2, 2)
                      (Some (Sample.snapshot 0 0 90 0))];
                 renderer := Some Sample.renderer |}
              [(1, 1)])
    as (_ & _ & Harrays & _).
  apply (Harrays 0%nat). apply Nat.lt_0_succ.
Defined.

(** Capture over a sprite and the stage: the sprite holds the snapshot of
    its state, the stage none. *)
Lemma setupInitialState_captures_witness :
  Forall2
    (captured
       (snd (setupInitialState
               {| targets :=
                    [Sample.sprite 5 0 45 30 (2, 2) None;
                     {| Target.x := 0; Target.y := 0;
                        Target.effects := {| Effects.ghost := 0 |};
                        Target.currentCostume := 2%nat;
                        Target.visible := true;
                        Target.isStage := true;
                        Target.drawableID := 1%nat;
                        Target.renderedDirection := 90;
                        Target.renderedScale := (100, 100);
                        Target.interpolationData :=
                          Some (Sample.snapshot 0 0 90 0) |}];
                  renderer := None |}
               [])))
    [Sample.sprite 5 0 45 30 (2, 2) None;
     {| Target.x := 0; Target.y := 0;
        Target.effects := {| Effects.ghost := 0 |};
        Target.currentCostume := 2%nat;
        Target.visible := true;
        Target.isStage := true;
        Target.drawableID := 1%nat;
        Target.renderedDirection := 90;
        Target.renderedScale := (100, 100);
        Target.interpolationData := Some (Sample.snapshot 0 0 90 0) |}]
    [Sample.sprite 5 0 45 30 (2, 2)
       (Some {| Snapshot.x := 5; Snapshot.y := 0; Snapshot.direction := 45;
                Snapshot.scale := 0%nat; Snapshot.costume := 0%nat;
                Snapshot.ghost := 30 |});
     {| Target.x := 0; Target.y := 0;
        Target.effects := {| Effects.ghost := 0 |};
        Target.currentCostume := 2%nat;
        Target.visible := true;
        Target.isStage := true;
        Target.drawableID := 1%nat;
        Target.renderedDirection := 90;
        Target.renderedScale := (100, 100);
        Target.interpolationData := None |}].
Proof.
  exact (proj2 (setupInitialState_captures
                  {| targets :=
                       [Sample.sprite 5 0 45 30 (2, 2) None;
                        {| Target.x := 0; Target.y := 0;
                           Target.effects := {| Effects.ghost := 0 |};
                           Target.currentCostume := 2%nat;
                           Target.visible := true;
                           Target.isStage := true;
                           Target.drawableID := 1%nat;
                           Target.renderedDirection := 90;
                           Target.renderedScale := (100, 100);
                           Target.interpolationData :=
                             Some (Sample.snapshot 0 0 90 0) |}];
                     renderer := None |}
                  [])).
Defined.


(** * Further properties *)

(** ** More on angles *)

(** The angle of a point does not change when the point moves along its ray
    from the origin. *)
Lemma atan2_scale (k y x : R) :
  0 < k -> Math.atan2 (k * y) (k * x) = Math.atan2 y x.
Proof.
  intros Hk. unfold Math.atan2.
  assert (Hratio : x <> 0 -> k * y / (k * x) = y / x)
    by (intros Hx; field; lra).
  destruct (Rlt_dec 0 x) as [Hx | Hx];
    destruct (Rlt_dec 0 (k * x)) as [Hkx | Hkx]; try nra.
  - now rewrite Hratio by lra.
  - destruct (Rlt_dec x 0) as [Hx' | Hx'];
      destruct (Rlt_dec (k * x) 0) as [Hkx' | Hkx']; try nra.
    + rewrite Hratio by lra.
      destruct (Rlt_dec y 0); destruct (Rlt_dec (k * y) 0); try nra;
        reflexivity.
    + destruct (Rlt_dec 0 y); destruct (Rlt_dec 0 (k * y)); try nra;
        try reflexivity.
      destruct (Rlt_dec y 0); destruct (Rlt_dec (k * y) 0); try nra;
        reflexivity.
Qed.

(** At time 1 the blend of two directions less than half a turn apart is
    their mean. *)
Lemma interpolatedDirection_end (direction startingDirection : R) :
  -180 < direction <= 180 -> -180 < startingDirection <= 180 ->
  Math.abs (direction - startingDirection) < 180 ->
  interpolatedDirection direction startingDirection 1
  = (direction + startingDirection) / 2.
Proof.
  intros Hd Hs Hapart. unfold interpolatedDirection, Math.sin, Math.cos.
  pose proof PI_RGT_0 as Hpi.
  set (a := direction * Math.PI / 180).
  set (b := startingDirection * Math.PI / 180).
  rewrite !Rmult_1_r, form1, form3.
  unfold Math.abs in Hapart. apply Rabs_def2 in Hapart.
  assert (Hk : 0 < 2 * cos ((a - b) / 2)).
  { assert (0 < cos ((a - b) / 2)); [|lra].
    apply cos_gt_0; unfold a, b, Math.PI; nra. }
  fold (Math.sin ((a + b) / 2)). fold (Math.cos ((a + b) / 2)).
  rewrite atan2_scale by exact Hk.
  rewrite atan2_sin_cos.
  - unfold a, b, Math.PI. field. lra.
  - unfold a, b, Math.PI. split; nra.
Qed.

(** X8.  The blended direction depends on the two directions only up to
    whole turns: adding multiples of 360 degrees to the current or to the
    starting direction does not change it. *)
Lemma interpolatedDirection_turns (direction startingDirection time : R)
  (k j : nat) :
  interpolatedDirection (direction + 360 * INR k)
    (startingDirection + 360 * INR j) time
  = interpolatedDirection direction startingDirection time.
Proof.
  unfold interpolatedDirection, Math.sin, Math.cos, Math.PI.
  pose proof PI_RGT_0 as Hpi.
  replace ((direction + 360 * INR k) * PI / 180)
    with (direction * PI / 180 + 2 * INR k * PI) by (field; lra).
  replace ((startingDirection + 360 * INR j) * PI / 180)
    with (startingDirection * PI / 180 + 2 * INR j * PI) by (field; lra).
  now rewrite !sin_period, !cos_period.
Qed.

(** A blend between two numbers of the same sign has that sign. *)
Lemma sign_blend (start current time : R) :
  0 <= time <= 1 -> Math.sign current = Math.sign start ->
  Math.sign (start + (current - start) * time) = Math.sign current.
Proof.
  intros Htime. unfold Math.sign.
  repeat match goal with
    | |- context [Rlt_dec ?a ?b] => destruct (Rlt_dec a b)
    end; intros Hsign; try lra; try nra.
Qed.

(** ** Targets at rest *)

Lemma scaleIsInterpolated_same (scale : ScaleArray) :
  scaleIsInterpolated scale scale = false.
Proof. apply scaleIsInterpolated_false. left. split; reflexivity. Qed.

Lemma atRest_later (store later : Store) (target : Target.t) :
  atRest store target -> atRest (store ++ later) target.
Proof.
  intros Hrest data Hdata.
  destruct (Hrest data Hdata) as (Hx & Hy & Hg & Hc & Hd & Ha & Hs).
  repeat split; auto.
  - rewrite length_app. lia.
  - unfold load in *. now rewrite app_nth1.
Qed.

(** An iteration over a target at rest issues no call and does not raise,
    whatever the renderer holds. *)
Lemma interpolateTarget_atRest (time : R) (target : Target.t)
  (renderer : Renderer.t) (store : Store) :
  atRest store target ->
  exists added,
    interpolateTarget time target (renderer, store)
    = Normal (renderer, store ++ added).
Proof.
  intros Hrest.
  destruct (Target.interpolationData target) as [data|] eqn:Hdata.
  2: { exists []. rewrite app_nil_r.
       now apply interpolateTarget_no_snapshot. }
  destruct (Hrest data Hdata) as (Hx & Hy & Hg & Hc & Hd & Ha & Hs).
  exists [Target.renderedScale target].
  unfold interpolateTarget. rewrite Hdata.
  rewrite interpolatePosition_unmoved.
  2,3: rewrite ?Hx, ?Hy; unfold Math.abs;
    rewrite Rminus_diag, Rabs_R0; lra.
  rewrite interpolateEffect_skip by (left; lra).
  rewrite interpolateDirectionScale_costume_unchanged by assumption.
  cbv zeta. rewrite Hs, scaleIsInterpolated_same.
  rewrite (proj2 (NumberFacts.strictNotEqual_false _ _) Hd).
  reflexivity.
Qed.

Lemma interpolateTargets_atRest (time : R) (targets : list Target.t) :
  forall (renderer : Renderer.t) (store : Store),
    Forall (atRest store) targets ->
    exists added,
      interpolateTargets time targets (renderer, store)
      = Normal (renderer, store ++ added).
Proof.
  induction targets as [|target rest IH]; intros renderer store Hrest.
  - exists []. cbn. now rewrite app_nil_r.
  - inversion Hrest as [|? ? Hhead Htail]; subst.
    destruct (interpolateTarget_atRest time target renderer store Hhead)
      as (added & Hrun).
    cbn [interpolateTargets]. rewrite Hrun. cbv beta iota.
    destruct (IH renderer (store ++ added)) as (added' & Hrun').
    { eapply Forall_impl; [|exact Htail].
      intros t. apply atRest_later. }
    exists (added ++ added'). rewrite app_assoc. exact Hrun'.
Qed.

(** X1.  When every target of the runtime that has a snapshot is as its
    snapshot records it, [interpolate] gives the renderer no call and does
    not raise, at any time and whatever drawables the renderer has. *)
Theorem interpolate_at_rest :
  forall (runtime : Runtime) (time : R) (store : Store),
    Forall (atRest store) (targets runtime) ->
    exists added,
      interpolate runtime time store = Normal (runtime, store ++ added).
Proof.
  intros runtime time store Hrest. unfold interpolate.
  destruct runtime as [ts [r|]]; cbn [renderer targets] in *.
  - destruct (interpolateTargets_atRest time ts r store Hrest)
      as (added & ->).
    now exists added.
  - exists []. now rewrite app_nil_r.
Qed.

Lemma interpolate_at_rest_witness :
  exists added,
    interpolate
      {| targets :=
           [Sample.sprite 3 4 90 20 (1, 1)
              (Some (Sample.snapshot 3 4 90 20))];
         renderer := Some Sample.emptyRenderer |}
      0.5 [(1, 1)]
    = Normal
        ({| targets :=
              [Sample.sprite 3 4 90 20 (1, 1)
                 (Some (Sample.snapshot 3 4 90 20))];
            renderer := Some Sample.emptyRenderer |},
         [(1, 1)] ++ added).
Proof.
  apply (interpolate_at_rest
           {| targets :=
                [Sample.sprite 3 4 90 20 (1, 1)
                   (Some (Sample.snapshot 3 4 90 20))];
              renderer := Some Sample.emptyRenderer |}
           0.5 [(1, 1)]).
  constructor; [|constructor].
  intros data Hdata. injection Hdata as <-.
  cbn. repeat split; auto with arith.
Defined.

(** Capture leaves every target at rest. *)
Lemma setupTarget_atRest (target : Target.t) (store : Store) :
  exists added,
    snd (setupTarget target store) = store ++ added
    /\ atRest (snd (setupTarget target store)) (fst (setupTarget target store)).
Proof.
  unfold setupTarget, getRenderedDirectionAndScale, allocate, atRest.
  destruct (Target.visible target && negb (Target.isStage target));
    cbn [fst snd].
  - exists [Target.renderedScale target]. split; [reflexivity|].
    intros data Hdata. cbn in Hdata. injection Hdata as <-. cbn.
    repeat split.
    + rewrite length_app. cbn. lia.
    + apply load_allocate_new.
  - exists []. rewrite app_nil_r. split; [reflexivity|].
    intros data Hdata. discriminate Hdata.
Qed.

Lemma setupTargets_atRest (targets : list Target.t) :
  forall store : Store,
  exists added,
    snd (setupTargets targets store) = store ++ added
    /\ Forall (atRest (snd (setupTargets targets store)))
         (fst (setupTargets targets store)).
Proof.
  induction targets as [|target rest IH]; intros store.
  - exists []. cbn. rewrite app_nil_r. split; [reflexivity | constructor].
  - cbn [setupTargets].
    destruct (setupTarget_atRest target store) as (added & Hstore & Hhead).
    destruct (setupTarget target store) as [target' store1].
    cbn [fst snd] in Hstore, Hhead. subst store1.
    destruct (IH (store ++ added)) as (added' & Hstore' & Hrest).
    destruct (setupTargets rest (store ++ added)) as [rest' store2].
    cbn [fst snd] in *. subst store2.
    exists (added ++ added'). split; [now rewrite app_assoc|].
    constructor; [now apply atRest_later | exact Hrest].
Qed.

(** X2.  [interpolate] called right after [setupInitialState], before any
    target has changed, gives the renderer no call and does not raise, at
    any time. *)
Theorem interpolate_after_setupInitialState :
  forall (runtime : Runtime) (time : R) (store : Store),
    exists added,
      interpolate (fst (setupInitialState runtime store)) time
        (snd (setupInitialState runtime store))
      = Normal (fst (setupInitialState runtime store),
                snd (setupInitialState runtime store) ++ added).
Proof.
  intros runtime time store. unfold setupInitialState, interpolate.
  destruct (setupTargets_atRest (targets runtime) store)
    as (added & _ & Hrest).
  destruct (setupTargets (targets runtime) store) as [targets' store'].
  cbn [fst snd renderer targets] in *.
  destruct (renderer runtime) as [r|].
  - destruct (interpolateTargets_atRest time targets' r store' Hrest)
      as (added' & ->).
    now exists added'.
  - exists []. now rewrite app_nil_r.
Qed.

(** ** Which drawables are addressed, and how often *)








(** ** What an exception leaves undone *)

Lemma interpolateTargets_app (time : R) (before after : list Target.t) :
  forall state : Renderer.t * Store,
    interpolateTargets time (before ++ after) state
    = match interpolateTargets time before state with
      | Normal state' => interpolateTargets time after state'
      | Throw e state' => Throw e state'
      end.
Proof.
  induction before as [|target rest IH]; intros state; [reflexivity|].
  cbn [app interpolateTargets].
  destruct (interpolateTarget time target state); [apply IH | reflexivity].
Qed.

Lemma interpolateTarget_lacking (time : R) (target : Target.t)
  (renderer : Renderer.t) (store : Store) :
  lacksDrawable renderer target ->
  interpolateTarget time target (renderer, store)
  = Throw TypeError (renderer, store).
Proof.
  intros (data & Hdata & Hmoved & Hnone).
  unfold interpolateTarget. rewrite Hdata.
  now rewrite interpolatePosition_no_drawable.
Qed.

(** X4.  When [interpolate] raises, it does so at the first target, in the
    order of the runtime, that has a snapshot, has moved by more than 0.1
    and has no drawable: the renderer has then been given exactly the calls
    for the targets before that one, and none for that target or for any
    target after it. *)
Theorem interpolate_raise_abandons_rest :
  forall (runtime : Runtime) (time : R) (store : Store) (r : Renderer.t)
    (before after : list Target.t) (target : Target.t),
    renderer runtime = Some r ->
    targets runtime = before ++ target :: after ->
    (forall t, In t before -> ~ lacksDrawable r t) ->
    lacksDrawable r target ->
    exists issued added,
      interpolate {| targets := before; renderer := Some r |} time store
      = Normal ({| targets := before; renderer := Some (issue r issued) |},
                store ++ added)
      /\ interpolate runtime time store
         = Throw TypeError
             ({| targets := targets runtime;
                 renderer := Some (issue r issued) |},
              store ++ added).
Proof.
  intros runtime time store r before after target Hr Htargets Hbefore
    Hlacks.
  destruct (interpolateTargets_frame time before r store)
    as (issued & added & Hframe).
  assert (Hnormal : interpolateTargets time before (r, store)
                    = Normal (issue r issued, store ++ added)).
  { destruct (interpolateTargets time before (r, store)) as [s | e s] eqn:Hrun;
      cbn in Hframe; subst s; [reflexivity|].
    assert (Hthrows : throws (interpolateTargets time before (r, store))
                      = true) by now rewrite Hrun.
    apply interpolateTargets_throws in Hthrows.
    destruct Hthrows as (t & Hin & Ht). now destruct (Hbefore t Hin). }
  exists issued, added. unfold interpolate. cbn [renderer targets].
  rewrite Hr, Htargets, interpolateTargets_app, Hnormal.
  cbn [interpolateTargets].
  rewrite interpolateTarget_lacking
    by now apply lacksDrawable_issue.
  split; reflexivity.
Qed.

Lemma interpolate_raise_abandons_rest_witness :
  exists issued added,
    interpolate
      {| targets :=
           [Sample.sprite 5 0 90 0 (1, 1) (Some (Sample.snapshot 0 0 90 0));
            {| Target.x := 5; Target.y := 0;
               Target.effects := {| Effects.ghost := 0 |};
               Target.currentCostume := 0%nat;
               Target.visible := true;
               Target.isStage := false;
               Target.drawableID := 7%nat;
               Target.renderedDirection := 90;
               Target.renderedScale := (1, 1);
               Target.interpolationData :=
                 Some (Sample.snapshot 0 0 90 0) |};
            Sample.sprite 0 0 90 10 (1, 1)
              (Some (Sample.snapshot 0 0 90 0))];
         renderer := Some Sample.renderer |}
      0.5 [(1, 1)]
    = Throw TypeError
        ({| targets :=
              [Sample.sprite 5 0 90 0 (1, 1)
                 (Some (Sample.snapshot 0 0 90 0));
               {| Target.x := 5; Target.y := 0;
                  Target.effects := {| Effects.ghost := 0 |};
                  Target.currentCostume := 0%nat;
                  Target.visible := true;
                  Target.isStage := false;
                  Target.drawableID := 7%nat;
                  Target.renderedDirection := 90;
                  Target.renderedScale := (1, 1);
                  Target.interpolationData :=
                    Some (Sample.snapshot 0 0 90 0) |};
               Sample.sprite 0 0 90 10 (1, 1)
                 (Some (Sample.snapshot 0 0 90 0))];
            renderer := Some (issue Sample.renderer issued) |},
         [(1, 1)] ++ added).
Proof.
  destruct (interpolate_raise_abandons_rest
              {| targets :=
                   [Sample.sprite 5 0 90 0 (1, 1)
                      (Some (Sample.snapshot 0 0 90 0));
                    {| Target.x := 5; Target.y := 0;
                       Target.effects := {| Effects.ghost := 0 |};
                       Target.currentCostume := 0%nat;
                       Target.visible := true;
                       Target.isStage := false;
                       Target.drawableID := 7%nat;
                       Target.renderedDirection := 90;
                       Target.renderedScale := (1, 1);
                       Target.interpolationData :=
                         Some (Sample.snapshot 0 0 90 0) |};
                    Sample.sprite 0 0 90 10 (1, 1)
                      (Some (Sample.snapshot 0 0 90 0))];
                 renderer := Some Sample.renderer |}
              0.5 [(1, 1)] Sample.renderer
              [Sample.sprite 5 0 90 0 (1, 1)
                 (Some (Sample.snapshot 0 0 90 0))]
              [Sample.sprite 0 0 90 10 (1, 1)
                 (Some (Sample.snapshot 0 0 90 0))]
              {| Target.x := 5; Target.y := 0;
                 Target.effects := {| Effects.ghost := 0 |};
                 Target.currentCostume := 0%nat;
                 Target.visible := true;
                 Target.isStage := false;
                 Target.drawableID := 7%nat;
                 Target.renderedDirection := 90;
                 Target.renderedScale := (1, 1);
                 Target.interpolationData :=
                   Some (Sample.snapshot 0 0 90 0) |}
              eq_refl eq_refl)
    as (issued & added & _ & Hraise).
  - intros t [<- | []] (data & _ & _ & Hnone). discriminate Hnone.
  - exists (Sample.snapshot 0 0 90 0).
    split; [reflexivity|]. split; [|reflexivity].
    left. cbn. unfold Math.abs, Rabs.
    destruct (Rcase_abs (5 - 0)); lra.
  - exists issued, added. exact Hraise.
Defined.

(** ** How far a blend can go *)

(** A position update is only issued for a move of less than 50 along each
    axis. *)
Lemma interpolatePosition_call_guard (renderer : Renderer.t)
  (target : Target.t) (interpolationData : Snapshot.t) (time : R)
  (ps : list Renderer.Call) :
  stateOf (interpolatePosition renderer target interpolationData time)
  = issue renderer ps ->
  ps <> [] ->
  Math.abs (Target.x target - Snapshot.x interpolationData) < 50
  /\ Math.abs (Target.y target - Snapshot.y interpolationData) < 50.
Proof.
  unfold interpolatePosition. intros Hps Hsome.
  destruct (_ || _);
    [destruct (Renderer.drawable _ _) as [drawable|];
     [destruct (_ && _) eqn:Hnear|]|];
    cbn [stateOf] in Hps; symmetry in Hps.
  2-4: apply issue_none_inj in Hps; contradiction.
  apply andb_true_iff in Hnear. destruct Hnear as [Hx Hy].
  apply NumberFacts.lt_true in Hx, Hy.
  pose proof (Rmin_l 50 (10 + Renderer.width (Renderer.getAABB drawable))).
  pose proof (Rmin_l 50 (10 + Renderer.height (Renderer.getAABB drawable))).
  unfold Math.min in *. split; lra.
Qed.

Lemma blend_between (start current time : R) :
  0 <= time <= 1 ->
  Rmin start current <= start + (current - start) * time
  <= Rmax start current
  /\ Math.abs (start + (current - start) * time - start)
     <= Math.abs (current - start).
Proof.
  intros Htime. unfold Rmin, Rmax, Math.abs, Rabs.
  destruct (Rle_dec start current);
    repeat match goal with
      | |- context [Rcase_abs ?a] => destruct (Rcase_abs a)
      end; repeat split; nra.
Qed.

(** X5.  At a time between 0 and 1, a position update issued for a target
    carries a point of the rectangle spanned by the position of the snapshot
    and the current position, less than 50 away from the position of the
    snapshot along each axis. *)
Theorem blended_position_bounds :
  forall (time : R) (target : Target.t) (interpolationData : Snapshot.t)
    (renderer : Renderer.t) (store : Store) (drawable : Renderer.Drawable),
    Target.interpolationData target = Some interpolationData ->
    Renderer.drawable renderer (Target.drawableID target) = Some drawable ->
    0 <= time <= 1 ->
    exists issued store',
      interpolateTarget time target (renderer, store)
      = Normal (issue renderer issued, store')
      /\ forall id x y,
           In (Renderer.Position id (x, y)) issued ->
           Rmin (Snapshot.x interpolationData) (Target.x target) <= x
           <= Rmax (Snapshot.x interpolationData) (Target.x target)
           /\ Rmin (Snapshot.y interpolationData) (Target.y target) <= y
              <= Rmax (Snapshot.y interpolationData) (Target.y target)
           /\ Math.abs (x - Snapshot.x interpolationData) < 50
           /\ Math.abs (y - Snapshot.y interpolationData) < 50.
Proof.
  intros time target data renderer store drawable Hdata Hdrawable Htime.
  pose proof (interpolatePosition_normal renderer target data time drawable
                Hdrawable) as Hnormal.
  blocks_of store Hdata Hnormal.
  exists (ps ++ es ++ ds), (store ++ added). split; [exact Hrun|].
  intros id x y Hin. apply in_positionCalls in Hin. rewrite Hpc in Hin.
  assert (Hstate : stateOf (interpolatePosition renderer target data time)
                   = issue renderer ps) by now rewrite Hps.
  assert (Hsome : ps <> []) by (intros ->; destruct Hin).
  destruct (interpolatePosition_call_guard _ _ _ _ _ Hstate Hsome)
    as [Hx Hy].
  apply (interpolatePosition_call _ _ _ _ _ Hstate) in Hin.
  injection Hin as _ -> ->.
  destruct (blend_between (Snapshot.x data) (Target.x target) time Htime)
    as [Hbx Hax].
  destruct (blend_between (Snapshot.y data) (Target.y target) time Htime)
    as [Hby Hay].
  repeat split; try apply Hbx; try apply Hby; lra.
Qed.

Lemma blended_position_bounds_witness :
  exists issued store',
    interpolateTarget 0.25
      (Sample.sprite 8 (-4) 90 0 (1, 1) (Some (Sample.snapshot 0 0 90 0)))
      (Sample.renderer, [(1, 1)])
    = Normal (issue Sample.renderer issued, store')
    /\ forall id x y,
         In (Renderer.Position id (x, y)) issued ->
         Math.abs (x - 0) < 50 /\ Math.abs (y - 0) < 50.
Proof.
  destruct (blended_position_bounds 0.25
              (Sample.sprite 8 (-4) 90 0 (1, 1)
                 (Some (Sample.snapshot 0 0 90 0)))
              (Sample.snapshot 0 0 90 0) Sample.renderer [(1, 1)]
              Sample.drawable eq_refl eq_refl)
    as (issued & store' & Hrun & Hbounds).
  - lra.
  - exists issued, store'. split; [exact Hrun|].
    intros id x y Hin.
    destruct (Hbounds id x y Hin) as (_ & _ & Hx & Hy).
    split; [exact Hx | exact Hy].
Defined.

(** X6.  At a time between 0 and 1, the scale of a direction and scale
    update has on each axis the sign of the current rendered scale, whether
    it was interpolated or not: a blend never mirrors the drawable nor
    collapses an axis to 0. *)
Theorem pushed_scale_keeps_sign :
  forall (time : R) (target : Target.t) (interpolationData : Snapshot.t)
    (renderer : Renderer.t) (store : Store) (drawable : Renderer.Drawable),
    Target.interpolationData target = Some interpolationData ->
    Renderer.drawable renderer (Target.drawableID target) = Some drawable ->
    (Snapshot.scale interpolationData < List.length store)%nat ->
    0 <= time <= 1 ->
    exists issued store',
      interpolateTarget time target (renderer, store)
      = Normal (issue renderer issued, store')
      /\ forall id direction s,
           In (Renderer.DirectionScale id direction s) issued ->
           Math.sign (fst s) = Math.sign (fst (Target.renderedScale target))
           /\ Math.sign (snd s)
              = Math.sign (snd (Target.renderedScale target)).
Proof.
  intros time target data renderer store drawable Hdata Hdrawable Hallocated
    Htime.
  destruct (iteration_calls time target data renderer store drawable Hdata
              Hdrawable)
    as (issued & store' & Hrun & _ & _ & Hchanged & Hds).
  exists issued, store'. split; [exact Hrun|].
  intros id d s Hin. apply in_directionScaleCalls in Hin.
  destruct (Nat.eq_dec (Snapshot.costume data)
              (Target.currentCostume target)) as [Hcostume | Hcostume].
  2: { rewrite (Hchanged Hcostume) in Hin. destruct Hin. }
  apply (Hds Hcostume Hallocated) in Hin. cbv zeta in Hin.
  injection Hin as _ _ ->.
  destruct (scaleIsInterpolated _ _) eqn:Hscale; [|split; reflexivity].
  apply scaleIsInterpolated_true in Hscale.
  destruct Hscale as (_ & Hs0 & Hs1 & _).
  unfold interpolatedScale. cbn [fst snd].
  split; now apply sign_blend.
Qed.

Lemma pushed_scale_keeps_sign_witness :
  exists issued store',
    interpolateTarget 0.5
      (Sample.sprite 0 0 90 0 (-3, 2) (Some (Sample.snapshot 0 0 90 0)))
      (Sample.renderer, [(-1, 1)])
    = Normal (issue Sample.renderer issued, store')
    /\ forall id direction s,
         In (Renderer.DirectionScale id direction s) issued ->
         Math.sign (fst s) = Math.sign (-3)
         /\ Math.sign (snd s) = Math.sign 2.
Proof.
  apply (pushed_scale_keeps_sign 0.5
           (Sample.sprite 0 0 90 0 (-3, 2)
              (Some (Sample.snapshot 0 0 90 0)))
           (Sample.snapshot 0 0 90 0) Sample.renderer [(-1, 1)]
           Sample.drawable eq_refl eq_refl (Nat.lt_0_succ 0)).
  lra.
Defined.

(** X7.  At time 1 the direction given to the renderer is not the current
    direction but the mean of the current direction and that of the
    snapshot, for two different directions of the half-open turn from -180
    to 180 that are less than 180 degrees apart. *)
Theorem blended_direction_at_end :
  forall (target : Target.t) (interpolationData : Snapshot.t)
    (renderer : Renderer.t) (store : Store) (drawable : Renderer.Drawable),
    Target.interpolationData target = Some interpolationData ->
    Renderer.drawable renderer (Target.drawableID target) = Some drawable ->
    Snapshot.costume interpolationData = Target.currentCostume target ->
    (Snapshot.scale interpolationData < List.length store)%nat ->
    let direction := Target.renderedDirection target in
    let startingDirection := Snapshot.direction interpolationData in
    direction <> startingDirection ->
    -180 < direction <= 180 -> -180 < startingDirection <= 180 ->
    Math.abs (direction - startingDirection) < 180 ->
    exists issued store' scale,
      interpolateTarget 1 target (renderer, store)
      = Normal (issue renderer issued, store')
      /\ directionScaleCalls issued
         = [Renderer.DirectionScale (Target.drawableID target)
              ((direction + startingDirection) / 2) scale]
      /\ (direction + startingDirection) / 2 <> direction.
Proof.
  intros target data renderer store drawable Hdata Hdrawable Hcostume
    Hallocated direction startingDirection Hdiffers Hd Hs Hapart.
  destruct (direction_scale_update 1 target data renderer store drawable
              Hdata Hdrawable Hcostume Hallocated)
    as (issued & store' & Hrun & Hcalls).
  fold direction startingDirection in Hcalls.
  rewrite (proj2 (NumberFacts.strictNotEqual_true _ _) Hdiffers) in Hcalls.
  cbn [orb] in Hcalls.
  rewrite interpolatedDirection_end in Hcalls by assumption.
  exists issued, store'. eexists.
  split; [exact Hrun|]. split; [exact Hcalls|]. lra.
Qed.

Lemma blended_direction_at_end_witness :
  exists issued store' scale,
    interpolateTarget 1
      (Sample.sprite 0 0 30 0 (1, 1) (Some (Sample.snapshot 0 0 90 0)))
      (Sample.renderer, [(1, 1)])
    = Normal (issue Sample.renderer issued, store')
    /\ directionScaleCalls issued
       = [Renderer.DirectionScale 0 ((30 + 90) / 2) scale]
    /\ (30 + 90) / 2 <> 30.
Proof.
  apply (blended_direction_at_end
           (Sample.sprite 0 0 30 0 (1, 1) (Some (Sample.snapshot 0 0 90 0)))
           (Sample.snapshot 0 0 90 0) Sample.renderer [(1, 1)]
           Sample.drawable eq_refl eq_refl eq_refl (Nat.lt_0_succ 0));
    cbn; try lra.
  unfold Math.abs, Rabs. destruct (Rcase_abs (30 - 90)); lra.
Defined.

(** ** The two ends of the tick, as the code has them *)

(** C3.  A sprite whose ghost value went from 0 to 10 and whose direction
    went from 90 to 30 within the tick, at rest otherwise.  At time 0
    [interpolate] gives the renderer the ghost value 10, the current one,
    where the snapshot has 0; at time 1 it gives the ghost value 20, where
    the current one is 10, and the direction 60, half way, where the current
    one is 30.  (The direction at time 0 is 90, that of the snapshot.) *)
Theorem boundary_values_missed :
  exists store0 store1,
    interpolate
      {| targets :=
           [Sample.sprite 0 0 30 10 (1, 1)
              (Some (Sample.snapshot 0 0 90 0))];
         renderer := Some Sample.renderer |}
      0 [(1, 1)]
    = Normal
        ({| targets :=
              [Sample.sprite 0 0 30 10 (1, 1)
                 (Some (Sample.snapshot 0 0 90 0))];
            renderer :=
              Some (issue Sample.renderer
                      [Renderer.Effect 0 "ghost" 10;
                       Renderer.DirectionScale 0 90 (1, 1)]) |},
         store0)
    /\ interpolate
         {| targets :=
              [Sample.sprite 0 0 30 10 (1, 1)
                 (Some (Sample.snapshot 0 0 90 0))];
            renderer := Some Sample.renderer |}
         1 [(1, 1)]
       = Normal
           ({| targets :=
                 [Sample.sprite 0 0 30 10 (1, 1)
                    (Some (Sample.snapshot 0 0 90 0))];
               renderer :=
                 Some (issue Sample.renderer
                         [Renderer.Effect 0 "ghost" 20;
                          Renderer.DirectionScale 0 60 (1, 1)]) |},
            store1)
    /\ 10 <> 0 /\ 20 <> 10 /\ 60 <> 30.
Proof.
  do 2 eexists. split; [|split; [|repeat split; lra]].
  - unfold interpolate.
    cbn [renderer targets interpolateTargets interpolateTarget
         Target.interpolationData Sample.sprite].
    fold (Sample.sprite 0 0 30 10 (1, 1) (Some (Sample.snapshot 0 0 90 0))).
    run_position_unmoved. run_effect_blend.
    rewrite interpolateDirectionScale_costume_unchanged
      by (cbn; auto with arith).
    unfold scaleIsInterpolated. decide_explicit_tests.
    rewrite interpolatedDirection_start by lra.
    replace (10 + (10 - 0) * 0) with 10 by lra.
    reflexivity.
  - unfold interpolate.
    cbn [renderer targets interpolateTargets interpolateTarget
         Target.interpolationData Sample.sprite].
    fold (Sample.sprite 0 0 30 10 (1, 1) (Some (Sample.snapshot 0 0 90 0))).
    run_position_unmoved. run_effect_blend.
    rewrite interpolateDirectionScale_costume_unchanged
      by (cbn; auto with arith).
    unfold scaleIsInterpolated. decide_explicit_tests.
    rewrite interpolatedDirection_end by real_arith.
    replace (10 + (10 - 0) * 1) with 20 by lra.
    replace ((30 + 90) / 2) with 60 by lra.
    reflexivity.
Qed.
